(** * Deliverability Explorer: the filter-to-SQL compiler of [app.py]

    A shallow embedding of the query-building code of the script
    ([build_where], the assembly of [sql_preview], the preset templates
    and [pick_col]) together with the Python string primitives it relies
    on, followed by the properties of the specification proved about it.

    Text is modelled by [string]; each [ascii] stands for the Unicode code
    point of the same number, so the model covers Python strings whose
    code points are below 256. *)

From Stdlib Require Import String Ascii List ZArith NArith Bool Lia.
From Stdlib Require Import DecimalString.
Import ListNotations.
Local Open Scope string_scope.

(* ================================================================== *)
(** ** Python string primitives *)

Module PyStr.

(** The characters that cannot be written inside a literal. *)
Definition nl : string := String "010"%char EmptyString.
Definition dq : string := String "034"%char EmptyString.

(** [str.isspace] on one character (code points below 256): TAB..CR,
    FS..US, SPACE, NEL and NBSP. *)
Definition isspace (c : ascii) : bool :=
  let n := N_of_ascii c in
  ((9 <=? n) && (n <=? 13) || (28 <=? n) && (n <=? 32)
   || (n =? 133) || (n =? 160))%N.

Fixpoint lstrip (s : string) : string :=
  match s with
  | EmptyString => EmptyString
  | String c s' => if isspace c then lstrip s' else s
  end.

Fixpoint rstrip (s : string) : string :=
  match s with
  | EmptyString => EmptyString
  | String c s' =>
      match rstrip s' with
      | EmptyString => if isspace c then EmptyString else String c EmptyString
      | r => String c r
      end
  end.

(** [s.strip()] *)
Definition strip (s : string) : string := rstrip (lstrip s).

(** [s.split(sep)] for a one-character separator: never an empty list. *)
Fixpoint split (sep : ascii) (s : string) : list string :=
  match s with
  | EmptyString => [EmptyString]
  | String c s' =>
      if Ascii.eqb c sep then EmptyString :: split sep s'
      else match split sep s' with
           | x :: r => String c x :: r
           | [] => [String c EmptyString]
           end
  end.

(** [sep.join(l)] *)
Definition join (sep : string) (l : list string) : string :=
  String.concat sep l.

(** [x in l] for a list of strings *)
Definition mem (x : string) (l : list string) : bool :=
  existsb (String.eqb x) l.

(** truth value of a string: [if s] *)
Definition truthy (s : string) : bool := negb (s =? "").

(** [str(n)] for an integer *)
Definition str_of_int (z : Z) : string :=
  NilZero.string_of_int (Z.to_int z).

(** [str(x)] where [x] is a string or [None] *)
Definition str_of_opt (o : option string) : string :=
  match o with
  | Some s => s
  | None => "None"
  end.

End PyStr.
Import PyStr.

(* ================================================================== *)
(** ** [float(s)] on a string: does the conversion succeed?

    Follows CPython: [PyFloat_FromString] (transformation of non-ASCII
    spaces, stripping of C whitespace), the underscore rule of
    [_Py_string_to_number_with_underscores], then [_PyOS_ascii_strtod]
    ([_Py_parse_inf_or_nan], else the decimal grammar of [_Py_dg_strtod]),
    and the requirement that the whole text be consumed. *)

Module PyFloat.

Definition code (c : ascii) : N := N_of_ascii c.

Definition is_digit (c : ascii) : bool :=
  ((48 <=? code c) && (code c <=? 57))%N.

(** [Py_ISSPACE]: the C locale's whitespace *)
Definition c_isspace (c : ascii) : bool :=
  ((9 <=? code c) && (code c <=? 13) || (code c =? 32))%N.

(** [Py_TOLOWER] *)
Definition to_lower (c : ascii) : ascii :=
  if ((65 <=? code c) && (code c <=? 90))%N
  then ascii_of_N (code c + 32) else c.

Definition is_ascii (s : string) : bool :=
  forallb (fun c => (code c <? 128)%N) (list_ascii_of_string s).

(** [_PyUnicode_TransformDecimalAndSpaceToASCII]: below 256 no character
    other than the ASCII digits has a decimal value. *)
Fixpoint transform (s : string) : string :=
  match s with
  | EmptyString => EmptyString
  | String c r =>
      if (code c <? 127)%N then String c (transform r)
      else if isspace c then String " " (transform r)
      else String "?" EmptyString
  end.

Definition to_ascii (s : string) : string :=
  if is_ascii s then s else transform s.

Fixpoint c_lstrip (s : string) : string :=
  match s with
  | EmptyString => EmptyString
  | String c r => if c_isspace c then c_lstrip r else s
  end.

Fixpoint c_rstrip (s : string) : string :=
  match s with
  | EmptyString => EmptyString
  | String c r =>
      match c_rstrip r with
      | EmptyString => if c_isspace c then EmptyString else String c EmptyString
      | t => String c t
      end
  end.

(** The underscore rule: an underscore stands between two digits; the
    underscores are removed. [prev] is the previous character. *)
Fixpoint strip_underscores (prev : ascii) (s : string) : option string :=
  match s with
  | EmptyString =>
      if Ascii.eqb prev "_" then None else Some EmptyString
  | String c r =>
      if Ascii.eqb c "_" then
        if is_digit prev then strip_underscores c r else None
      else if Ascii.eqb prev "_" && negb (is_digit c) then None
      else option_map (String c) (strip_underscores c r)
  end.

Definition has_underscore (s : string) : bool :=
  existsb (fun c => Ascii.eqb c "_") (list_ascii_of_string s).

Definition no_underscores (s : string) : option string :=
  if has_underscore s then strip_underscores zero s else Some s.

(** [case_insensitive_match s t]: the rest of [s] after [t], if [s]
    starts with [t] up to case ([t] is lower case). *)
Fixpoint ci_match (s t : string) : option string :=
  match t with
  | EmptyString => Some s
  | String ct t' =>
      match s with
      | String cs s' =>
          if Ascii.eqb (to_lower cs) ct then ci_match s' t' else None
      | EmptyString => None
      end
  end.

Definition drop_sign (s : string) : string :=
  match s with
  | String c r => if Ascii.eqb c "-" || Ascii.eqb c "+" then r else s
  | EmptyString => s
  end.

(** [_Py_parse_inf_or_nan]: the rest of the text, [None] when neither
    is there. *)
Definition parse_inf_or_nan (s : string) : option string :=
  let s1 := drop_sign s in
  match ci_match s1 "inf" with
  | Some r => match ci_match r "inity" with
              | Some r' => Some r'
              | None => Some r
              end
  | None => ci_match s1 "nan"
  end.

(** A run of characters satisfying [p]: its length and what follows. *)
Fixpoint span (p : ascii -> bool) (s : string) : nat * string :=
  match s with
  | EmptyString => (0, EmptyString)
  | String c r =>
      if p c then let '(n, t) := span p r in (S n, t) else (0, s)
  end.

Definition is_zero (c : ascii) : bool := Ascii.eqb c "0".

Definition MAX_DIGITS : N := 1000000000.

(** The exponent part; an exponent without a digit is not consumed. *)
Definition parse_exponent (s : string) : string :=
  match s with
  | String c r =>
      if Ascii.eqb c "e" || Ascii.eqb c "E" then
        let '(nz, r1) := span is_zero (drop_sign r) in
        let '(nd, r2) := span is_digit r1 in
        if (nd =? 0)%nat && (nz =? 0)%nat then s else r2
      else s
  | EmptyString => s
  end.

(** [_Py_dg_strtod]: sign, leading zeros, digits, point and digits (at
    least one digit in all, at most [MAX_DIGITS] significant ones),
    exponent. The rest of the text, [None] on a parse error. *)
Definition parse_decimal (s : string) : option string :=
  let '(lz, s1) := span is_zero (drop_sign s) in
  let '(nd, s2) := span is_digit s1 in
  let '(lz', ndigits, fraclen, s3) :=
    match s2 with
    | String "." r =>
        let '(fz, r1) :=
          if (nd =? 0)%nat then span is_zero r else (0, r) in
        let '(fd, r2) := span is_digit r1 in
        ((0 <? lz)%nat || (0 <? fz)%nat, nd + fd, fz + fd, r2)
    | _ => ((0 <? lz)%nat, nd, 0, s2)
    end in
  if (ndigits =? 0)%nat && negb lz' then None
  else if ((MAX_DIGITS <? N.of_nat ndigits)
           || (MAX_DIGITS <? N.of_nat fraclen))%N then None
  else Some (parse_exponent s3).

(** [_PyOS_ascii_strtod] *)
Definition strtod (s : string) : option string :=
  match parse_inf_or_nan s with
  | Some r => Some r
  | None => parse_decimal s
  end.

(** [float(val)] returns (rather than raising [ValueError]). *)
Definition float_ok (val : string) : bool :=
  let s := c_rstrip (c_lstrip (to_ascii val)) in
  match no_underscores s with
  | None => false
  | Some d =>
      match strtod d with
      | Some EmptyString => true
      | _ => false
      end
  end.

End PyFloat.
Import PyFloat.

(* ================================================================== *)
(** ** Results of calls that may raise *)

Inductive exn : Type :=
| KeyError
| ValueError
| StreamlitAPIException.

Inductive result (A : Type) : Type :=
| Ok (a : A)
| Raise (e : exn).
Arguments Ok {A} a.
Arguments Raise {A} e.

Definition bind {A B : Type} (r : result A) (k : A -> result B) : result B :=
  match r with
  | Ok a => k a
  | Raise e => Raise e
  end.

Notation "x <- r ;; k" := (bind r (fun x => k))
  (at level 61, r at next level, right associativity).

(** [d[key]] on a dict of strings, kept as its list of items *)
Fixpoint dict_get (d : list (string * string)) (key : string) : result string :=
  match d with
  | [] => Raise KeyError
  | (k, v) :: d' => if k =? key then Ok v else dict_get d' key
  end.

(** [l.index(x)] *)
Fixpoint list_index (x : string) (l : list string) : result nat :=
  match l with
  | [] => Raise ValueError
  | y :: l' => if y =? x then Ok 0
               else i <- list_index x l' ;; Ok (S i)
  end.

(* ================================================================== *)
(** ** The widgets, as far as the script depends on them

    A widget returns what the user chose; the user's action is an
    argument of the model. *)

(** [st.selectbox(label, options, index=index)]: the option at the
    position the user picked, initially the one at [index]; [None] when
    there is no option. An [index] outside a non-empty list is refused. *)
Definition selectbox (options : list string) (index : nat)
    (choice : option nat) : result (option string) :=
  if (0 <? length options)%nat && negb (index <? length options)%nat
  then Raise StreamlitAPIException
  else Ok (match choice with
           | Some i => if (i <? length options)%nat
                       then nth_error options i
                       else nth_error options index
           | None => nth_error options index
           end).

(** [st.number_input(label, min_value, max_value, value, step)] on
    integers: an entry outside the bounds is not committed, the widget
    keeps its current value. *)
Definition commit (min_value max_value : Z) (current entry : Z) : Z :=
  if ((min_value <=? entry) && (entry <=? max_value))%Z
  then entry else current.

Definition number_input (min_value max_value value : Z)
    (entries : list Z) : Z :=
  fold_left (commit min_value max_value) entries value.

(* ================================================================== *)
(** ** Presets of the sheet "Failure Details" : [pick_col] *)

Definition default_map : list (string * string) :=
  [ ("date", "Date Sent");
    ("user", "User");
    ("domain", "To Domain");
    ("reason", "Detail Category");
    ("smtp", "SMTP Code");
    ("server", "Server");
    ("details", "Details") ].

(** [pick_col(label, key)]; [cols] is the table's column list and
    [choice] what the user did with the select box. *)
Definition pick_col (cols : list string) (key : string)
    (choice : option nat) : result (option string) :=
  preferred <- dict_get default_map key ;;
  let options := cols in
  idx <- (if mem preferred options then list_index preferred options
          else Ok 0) ;;
  selectbox options idx choice.

(** The columns the presets of "Failure Details" are run with. *)
Record role_cols : Type := {
  col_domain : option string;
  col_reason : option string;
  col_user : option string;
  col_smtp : option string;
  col_date : option string;
  col_server : option string
}.

(* ================================================================== *)
(** ** The preset templates *)

Inductive preset : Type :=
| Top10FailingDomains
| TopFailureReasons
| TopSmtpCodes
| TopUsersByFailures
| FailuresByDay
| LowestSuccessRateDomains
| HighestRecipients.

(** The indentation of the template lines in the script. *)
Definition ind : string := "            ".

Definition line (s : string) : string := ind ++ s ++ nl.

(** A column interpolated between double quotes: [f'"{col}"']. *)
Definition quoted_col (c : option string) : string :=
  dq ++ str_of_opt c ++ dq.

(** The text assigned to [sql] under each button. *)
Definition preset_sql (p : preset) (m : role_cols) : string :=
  match p with
  | Top10FailingDomains =>
      nl ++ line ("SELECT " ++ quoted_col (col_domain m)
                  ++ " AS to_domain, COUNT(*) AS failures")
      ++ line "FROM data"
      ++ line ("GROUP BY " ++ quoted_col (col_domain m))
      ++ line "ORDER BY failures DESC"
      ++ line "LIMIT 10;"
      ++ ind
  | TopFailureReasons =>
      nl ++ line ("SELECT " ++ quoted_col (col_reason m)
                  ++ " AS reason, COUNT(*) AS cnt")
      ++ line "FROM data"
      ++ line ("GROUP BY " ++ quoted_col (col_reason m))
      ++ line "ORDER BY cnt DESC"
      ++ line "LIMIT 15;"
      ++ ind
  | TopSmtpCodes =>
      nl ++ line ("SELECT " ++ quoted_col (col_smtp m)
                  ++ " AS smtp_code, COUNT(*) AS cnt")
      ++ line "FROM data"
      ++ line ("GROUP BY " ++ quoted_col (col_smtp m))
      ++ line "ORDER BY cnt DESC"
      ++ line "LIMIT 20;"
      ++ ind
  | TopUsersByFailures =>
      nl ++ line ("SELECT " ++ quoted_col (col_user m)
                  ++ " AS user, COUNT(*) AS failures")
      ++ line "FROM data"
      ++ line ("GROUP BY " ++ quoted_col (col_user m))
      ++ line "ORDER BY failures DESC"
      ++ line "LIMIT 20;"
      ++ ind
  | FailuresByDay =>
      nl ++ line ("SELECT CAST(" ++ quoted_col (col_date m)
                  ++ " AS DATE) AS sent_day, COUNT(*) AS failures")
      ++ line "FROM data"
      ++ line "GROUP BY sent_day"
      ++ line "ORDER BY sent_day DESC"
      ++ line "LIMIT 30;"
      ++ ind
  | LowestSuccessRateDomains =>
      nl ++ line ("SELECT Domain, Recipients, Delivered, " ++ dq
                  ++ "Success Rate %" ++ dq ++ " AS success_rate")
      ++ line "FROM data"
      ++ line ("ORDER BY " ++ dq ++ "Success Rate %" ++ dq ++ " ASC")
      ++ line "LIMIT 25;"
      ++ ind
  | HighestRecipients =>
      nl ++ line ("SELECT Domain, Recipients, Delivered, " ++ dq
                  ++ "Success Rate %" ++ dq ++ " AS success_rate")
      ++ line "FROM data"
      ++ line "ORDER BY Recipients DESC"
      ++ line "LIMIT 25;"
      ++ ind
  end.

(** The buttons shown for a sheet. *)
Definition presets_of_sheet (sheet : string) : list preset :=
  if sheet =? "Failure Details" then
    [Top10FailingDomains; TopFailureReasons; TopSmtpCodes;
     TopUsersByFailures; FailuresByDay]
  else if sheet =? "Domains w Lower Deliverability" then
    [LowestSuccessRateDomains; HighestRecipients]
  else [].

(** What the user did with the six column boxes of "Failure Details". *)
Record role_choices : Type := {
  pick_domain : option nat;
  pick_reason : option nat;
  pick_user : option nat;
  pick_smtp : option nat;
  pick_date : option nat;
  pick_server : option nat
}.

(** The six calls of [pick_col] under [m1], [m2] and [m3], in the order
    of the script. *)
Definition resolve_roles (cols : list string) (ch : role_choices)
    : result role_cols :=
  d <- pick_col cols "domain" (pick_domain ch) ;;
  r <- pick_col cols "reason" (pick_reason ch) ;;
  u <- pick_col cols "user" (pick_user ch) ;;
  c <- pick_col cols "smtp" (pick_smtp ch) ;;
  t <- pick_col cols "date" (pick_date ch) ;;
  v <- pick_col cols "server" (pick_server ch) ;;
  Ok {| col_domain := d; col_reason := r; col_user := u;
        col_smtp := c; col_date := t; col_server := v |}.

(** The columns of the table a template names: the column of its role
    for the templates of "Failure Details", the columns written in the
    text for the two others. *)
Definition preset_columns (p : preset) (m : role_cols) : list string :=
  match p with
  | Top10FailingDomains => [str_of_opt (col_domain m)]
  | TopFailureReasons => [str_of_opt (col_reason m)]
  | TopSmtpCodes => [str_of_opt (col_smtp m)]
  | TopUsersByFailures => [str_of_opt (col_user m)]
  | FailuresByDay => [str_of_opt (col_date m)]
  | LowestSuccessRateDomains
  | HighestRecipients =>
      ["Domain"; "Recipients"; "Delivered"; "Success Rate %"]
  end.

(* ================================================================== *)
(** ** The generic filter builder *)

Definition operators : list string :=
  ["="; "!="; ">"; ">="; "<"; "<="; "contains"; "starts_with";
   "ends_with"; "in (comma separated)"].

Definition comparison_ops : list string :=
  ["="; "!="; ">"; ">="; "<"; "<="].

(** A filter: column, operator, value. *)
Definition filter_triple : Type := (string * string * string)%type.

(** [not val or str(val).strip() == ""] *)
Definition skipped (val : string) : bool :=
  negb (truthy val) || (strip val =? "").

(** The [try]/[except] of the six comparison operators: the fragment
    appended to [where_parts]. *)
Definition compare_fragment (col_sql op val : string) : string :=
  if float_ok val
  then "CAST(" ++ col_sql ++ " AS DOUBLE) " ++ op ++ " " ++ val
  else "CAST(" ++ col_sql ++ " AS VARCHAR) " ++ op ++ " '" ++ val ++ "'".

(** [[x.strip() for x in val.split(",") if x.strip()]] *)
Definition in_items (val : string) : list string :=
  map strip (filter (fun x => truthy (strip x)) (split "," val)).

(** [",".join([f"'{x}'" for x in items])] *)
Definition quote_items (items : list string) : string :=
  join "," (map (fun x => "'" ++ x ++ "'") items).

(** [l.append(x)] *)
Definition list_append (l : list string) (x : string) : list string :=
  (l ++ [x])%list.

(** One turn of the loop of [build_where] on the list [where_parts]. *)
Definition where_step (where_parts : list string) (f : filter_triple)
    : list string :=
  let '(col, op, val) := f in
  if skipped val then where_parts
  else
    let col_sql := dq ++ col ++ dq in
    if mem op comparison_ops then
      list_append where_parts (compare_fragment col_sql op val)
    else if op =? "contains" then
      list_append where_parts
        ("CAST(" ++ col_sql ++ " AS VARCHAR) ILIKE '%" ++ val ++ "%'")
    else if op =? "starts_with" then
      list_append where_parts
        ("CAST(" ++ col_sql ++ " AS VARCHAR) ILIKE '" ++ val ++ "%'")
    else if op =? "ends_with" then
      list_append where_parts
        ("CAST(" ++ col_sql ++ " AS VARCHAR) ILIKE '%" ++ val ++ "'")
    else if op =? "in (comma separated)" then
      let items := in_items val in
      let quoted := quote_items items in
      list_append where_parts
        ("CAST(" ++ col_sql ++ " AS VARCHAR) IN (" ++ quoted ++ ")")
    else where_parts.

Definition build_where (filters : list filter_triple) : string :=
  join " AND " (fold_left where_step filters []).

Definition where_sql (filters : list filter_triple) : string :=
  let where_clause := build_where filters in
  if truthy where_clause then "WHERE " ++ where_clause else "".

Definition select_sql (metric : string) : string :=
  if metric =? "Show rows" then "*" else "COUNT(*) AS row_count".

Definition group_sql (group_by : list string) : string :=
  match group_by with
  | [] => ""
  | _ => "GROUP BY " ++ join ", " (map (fun c => dq ++ c ++ dq) group_by)
  end.

(** The bounds and the initial value of the "Limit" input. *)
Definition LIMIT_MIN : Z := 1.
Definition LIMIT_MAX : Z := 100000.
Definition LIMIT_VALUE : Z := 1000.

(** [sql_preview], for a value [limit] of the "Limit" input. *)
Definition sql_preview (metric : string) (filters : list filter_triple)
    (group_by : list string) (limit : Z) : string :=
  nl ++ "SELECT " ++ select_sql metric ++ nl
  ++ "FROM data" ++ nl
  ++ where_sql filters ++ nl
  ++ group_sql group_by ++ nl
  ++ "LIMIT " ++ str_of_int limit ++ ";" ++ nl.

(** The rows of widgets that fill [filters]: what the user picked in the
    column box, in the operator box, and typed as value. *)
Record filter_row : Type := {
  col_choice : option nat;
  op_choice : option nat;
  val_text : string
}.

(** The loop over [range(int(n))]: one triple per row of widgets. The
    boxes start at their first option. A triple's column and operator
    are only ever formatted or compared with strings, so the value of a
    box is kept as its [str]. *)
Fixpoint collect_filters (cols : list string) (rows : list filter_row)
    : result (list filter_triple) :=
  match rows with
  | [] => Ok []
  | r :: rows' =>
      col <- selectbox cols 0 (col_choice r) ;;
      op <- selectbox operators 0 (op_choice r) ;;
      rest <- collect_filters cols rows' ;;
      Ok ((str_of_opt col, str_of_opt op, val_text r) :: rest)
  end.

(** The columns a list of filters puts into the predicate. *)
Definition emits (f : filter_triple) : bool :=
  let '(_, op, val) := f in negb (skipped val) && mem op operators.

Definition column_refs (filters : list filter_triple) : list string :=
  map (fun f => fst (fst f)) (filter emits filters).

(* ================================================================== *)
(** ** Vocabulary of the specification *)

(** The text [s] ends with [suf]. *)
Definition endswith (s suf : string) : bool :=
  let n := String.length s in
  let m := String.length suf in
  (m <=? n)%nat && (substring (n - m) m s =? suf).

(** The row limit clause of a query text. *)
Definition limit_clause (n : Z) : string := "LIMIT " ++ str_of_int n ++ ";".

(** A value that is empty or whitespace-only: all its characters, if
    any, are white. *)
Definition blank (s : string) : Prop :=
  forallb isspace (list_ascii_of_string s) = true.

(** What the specification calls a numeric-typed and a text-typed
    comparison of a column with a value. *)
Definition numeric_comparison (col op val : string) : string :=
  "CAST(" ++ (dq ++ col ++ dq) ++ " AS DOUBLE) " ++ op ++ " " ++ val.

Definition text_comparison (col op val : string) : string :=
  "CAST(" ++ (dq ++ col ++ dq) ++ " AS VARCHAR) " ++ op
  ++ " '" ++ val ++ "'".

(** The item set as the specification words it: split the value on
    commas, trim each item, drop the empty items. *)
Definition spec_in_items (val : string) : list string :=
  filter truthy (map strip (split "," val)).

(** The membership test of the text-cast column against a literal set. *)
Definition membership_test (col : string) (items : list string) : string :=
  "CAST(" ++ (dq ++ col ++ dq) ++ " AS VARCHAR) IN ("
  ++ join "," (map (fun x => "'" ++ x ++ "'") items) ++ ")".

(** The compiler the specification describes, which checks every column
    it refers to against the schema and rejects the query otherwise. *)
Definition checked_build_where (cols : list string)
    (filters : list filter_triple) : option string :=
  if forallb (fun c => mem c cols) (column_refs filters)
  then Some (build_where filters) else None.


(** The characters of the texts [float] accepts: digits, sign, point,
    underscore, the letters of an exponent and of inf, infinity and nan
    in either case, and whitespace. *)
Definition float_letters : list ascii :=
  list_ascii_of_string "+-._einfatyn".

Definition float_char (c : ascii) : bool :=
  is_digit c || isspace c || existsb (Ascii.eqb (to_lower c)) float_letters.

(** All the characters of a text satisfy [p]. *)
Definition all_chars (p : ascii -> bool) (s : string) : Prop :=
  forallb p (list_ascii_of_string s) = true.

(** The fragments a list of filters leaves in [where_parts]. *)
Definition where_parts_of (filters : list filter_triple) : list string :=
  fold_left where_step filters [].

(* ================================================================== *)
(** * Properties *)

(** ** Evaluations *)

Example float_ok_accepts :
  map float_ok ["5"; " 1e5 "; "1_000"; "nan"; "-Infinity"; "1."; ".5";
                "+.5e-3"; "00.e1"; "1e1_0"]
  = repeat true 10.
Proof. reflexivity. Qed.

Example float_ok_rejects :
  map float_ok ["abc"; ""; " "; "1e"; "."; "1__0"; "_1"; "1_"; "0x10";
                "infi"; "1 2"; "1e+"; "--1"; "5,0"]
  = repeat false 14.
Proof. reflexivity. Qed.

(** Scenario 3 of the specification. *)
Example build_where_stray_item :
  build_where [("Name", "in (comma separated)", " x, ,y")]
  = "CAST(" ++ dq ++ "Name" ++ dq ++ " AS VARCHAR) IN ('x','y')".
Proof. reflexivity. Qed.

Example build_where_conjunction :
  build_where [("A", "=", "5"); ("B", "contains", "x"); ("C", "<", "")]
  = "CAST(" ++ dq ++ "A" ++ dq ++ " AS DOUBLE) = 5 AND CAST("
    ++ dq ++ "B" ++ dq ++ " AS VARCHAR) ILIKE '%x%'".
Proof. reflexivity. Qed.

Example sql_preview_count :
  sql_preview "Count rows" [("A", "=", "5")] ["A"] 1000
  = nl ++ "SELECT COUNT(*) AS row_count" ++ nl
    ++ "FROM data" ++ nl
    ++ "WHERE CAST(" ++ dq ++ "A" ++ dq ++ " AS DOUBLE) = 5" ++ nl
    ++ "GROUP BY " ++ dq ++ "A" ++ dq ++ nl
    ++ "LIMIT 1000;" ++ nl.
Proof. reflexivity. Qed.

(** ** Strings *)

Lemma append_assoc (a b c : string) : (a ++ b) ++ c = a ++ (b ++ c).
Proof.
  induction a as [|x a IH]; simpl; [reflexivity | now rewrite IH].
Qed.

Lemma length_append (a b : string) :
  String.length (a ++ b) = String.length a + String.length b.
Proof.
  induction a as [|x a IH]; simpl; [reflexivity | now rewrite IH].
Qed.

Lemma append_inv_head (a b c : string) : a ++ b = a ++ c -> b = c.
Proof.
  induction a as [|x a IH]; simpl; intros H; [exact H|].
  apply IH. now injection H.
Qed.

Lemma substring_whole (s : string) : substring 0 (String.length s) s = s.
Proof.
  induction s as [|x s IH]; simpl; [reflexivity | now rewrite IH].
Qed.

Lemma substring_skip (pre t : string) (m : nat) :
  substring (String.length pre) m (pre ++ t) = substring 0 m t.
Proof.
  induction pre as [|x pre IH]; simpl; [reflexivity | exact IH].
Qed.

Lemma substring_cut (s : string) :
  forall k, k <= String.length s ->
    s = substring 0 k s ++ substring k (String.length s - k) s.
Proof.
  induction s as [|x s IH]; intros [|k] Hk; simpl in *.
  - reflexivity.
  - lia.
  - now rewrite substring_whole.
  - f_equal. apply IH. lia.
Qed.

(** [endswith] holds exactly of the texts that are some prefix followed
    by the suffix. *)
Lemma endswith_iff (s suf : string) :
  endswith s suf = true <-> exists pre, s = pre ++ suf.
Proof.
  unfold endswith. split.
  - intros H. apply andb_true_iff in H as [Hle Heq].
    apply Nat.leb_le in Hle. apply String.eqb_eq in Heq.
    exists (substring 0 (String.length s - String.length suf) s).
    pose proof (substring_cut s (String.length s - String.length suf)) as C.
    replace (String.length s - (String.length s - String.length suf))
      with (String.length suf) in C by lia.
    rewrite Heq in C. apply C. lia.
  - intros [pre ->]. rewrite length_append.
    apply andb_true_iff. split.
    + apply Nat.leb_le. lia.
    + replace (String.length pre + String.length suf - String.length suf)
        with (String.length pre) by lia.
      rewrite substring_skip, substring_whole. apply String.eqb_refl.
Qed.

Lemma endswith_prepend (pre t suf : string) :
  endswith t suf = true -> endswith (pre ++ t) suf = true.
Proof.
  rewrite !endswith_iff. intros [p ->].
  exists (pre ++ p). now rewrite append_assoc.
Qed.

Lemma truthy_false (s : string) : truthy s = false <-> s = "".
Proof.
  unfold truthy. rewrite negb_false_iff. apply String.eqb_eq.
Qed.

Lemma mem_In (x : string) (l : list string) : mem x l = true <-> In x l.
Proof.
  unfold mem. rewrite existsb_exists. split.
  - intros (y & Hy & E). apply String.eqb_eq in E. now subst.
  - intros H. exists x. split; [exact H | apply String.eqb_refl].
Qed.

Lemma mem_false (x : string) (l : list string) : mem x l = false <-> ~ In x l.
Proof.
  rewrite <- mem_In. now destruct (mem x l).
Qed.

(** Filtering on the image and mapping commute. *)
Lemma map_filter_swap {A B : Type} (f : A -> B) (p : B -> bool) (l : list A) :
  map f (filter (fun x => p (f x)) l) = filter p (map f l).
Proof.
  induction l as [|x l IH]; simpl; [reflexivity|].
  destruct (p (f x)); simpl; now rewrite IH.
Qed.

(** ** Whitespace *)

Lemma lstrip_empty (s : string) : lstrip s = "" -> blank s.
Proof.
  unfold blank. induction s as [|c s IH]; simpl; [reflexivity|].
  destruct (isspace c) eqn:Hc; [exact IH | discriminate].
Qed.

Lemma lstrip_head (s : string) :
  lstrip s = "" \/ exists c r, lstrip s = String c r /\ isspace c = false.
Proof.
  induction s as [|c s IH]; simpl; [now left|].
  destruct (isspace c) eqn:Hc; [exact IH|].
  right. now exists c, s.
Qed.

Lemma rstrip_empty (s : string) : rstrip s = "" -> blank s.
Proof.
  unfold blank. induction s as [|c s IH]; simpl; [reflexivity|].
  destruct (rstrip s) eqn:Hr.
  - destruct (isspace c) eqn:Hc; [intros _; now apply IH | discriminate].
  - discriminate.
Qed.

Lemma blank_lstrip (s : string) : blank s -> lstrip s = "".
Proof.
  unfold blank. induction s as [|c s IH]; simpl; [reflexivity|].
  intros H. apply andb_true_iff in H as [Hc Hs]. now rewrite Hc, IH.
Qed.

Lemma strip_empty_iff (s : string) : strip s = "" <-> blank s.
Proof.
  unfold strip. split.
  - intros H. apply lstrip_empty.
    destruct (lstrip_head s) as [E | (c & r & E & Hc)]; [exact E|].
    rewrite E in H. apply rstrip_empty in H. unfold blank in H.
    simpl in H. rewrite Hc in H. discriminate.
  - intros H. now rewrite blank_lstrip.
Qed.

(** The test of line 190 holds exactly of the empty and the
    whitespace-only values. *)
Lemma skipped_iff (val : string) : skipped val = true <-> blank val.
Proof.
  unfold skipped. rewrite orb_true_iff, negb_true_iff, truthy_false,
    String.eqb_eq, strip_empty_iff.
  split; [intros [-> | H]; [reflexivity | exact H] | now right].
Qed.

Lemma isspace_not_comma (c : ascii) :
  isspace c = true -> Ascii.eqb c "," = false.
Proof.
  intros H. destruct (Ascii.eqb_spec c ","); [subst; discriminate | reflexivity].
Qed.

(** A white text has no comma: it is its own single item. *)
Lemma blank_split (s : string) : blank s -> split "," s = [s].
Proof.
  unfold blank. induction s as [|c s IH]; simpl; [reflexivity|].
  intros H. apply andb_true_iff in H as [Hc Hs].
  now rewrite (isspace_not_comma c Hc), (IH Hs).
Qed.

(** ** [float] rejects the values that are skipped *)

Lemma strtod_white_head (h : ascii) (r : string) :
  isspace h = true -> strtod (String h r) = None.
Proof.
  intros H.
  destruct h as [[] [] [] [] [] [] [] []];
    solve [discriminate H | reflexivity].
Qed.

Lemma blank_transform (s : string) : blank s -> blank (transform s).
Proof.
  unfold blank. induction s as [|c s IH]; simpl; [reflexivity|].
  intros H. apply andb_true_iff in H as [Hc Hs].
  destruct (code c <? 127)%N; simpl.
  - now rewrite Hc, IH.
  - rewrite Hc. simpl. now apply IH.
Qed.

Lemma blank_to_ascii (s : string) : blank s -> blank (to_ascii s).
Proof.
  unfold to_ascii. destruct (is_ascii s); [easy | apply blank_transform].
Qed.

Lemma blank_c_lstrip (s : string) : blank s -> blank (c_lstrip s).
Proof.
  unfold blank. induction s as [|c s IH]; simpl; [reflexivity|].
  intros H. destruct (c_isspace c); [|exact H].
  apply andb_true_iff in H as [_ Hs]. now apply IH.
Qed.

Lemma blank_c_rstrip (s : string) : blank s -> blank (c_rstrip s).
Proof.
  unfold blank. induction s as [|c s IH]; simpl; [reflexivity|].
  intros H. apply andb_true_iff in H as [Hc Hs]. specialize (IH Hs).
  destruct (c_rstrip s) as [|d t].
  - destruct (c_isspace c); simpl; [reflexivity | now rewrite Hc].
  - simpl in *. now rewrite Hc.
Qed.

(** Removing underscores keeps the first character. *)
Lemma no_underscores_head (h : ascii) (r d : string) :
  no_underscores (String h r) = Some d -> exists r', d = String h r'.
Proof.
  unfold no_underscores. destruct (has_underscore (String h r)).
  - simpl. destruct (Ascii.eqb h "_").
    + discriminate.
    + simpl. destruct (strip_underscores h r) as [t|]; simpl.
      * intros [= <-]. now exists t.
      * discriminate.
  - intros [= <-]. now exists r.
Qed.

Lemma float_ok_blank (val : string) : blank val -> float_ok val = false.
Proof.
  intros H. unfold float_ok.
  pose proof (blank_c_rstrip _ (blank_c_lstrip _ (blank_to_ascii _ H))) as B.
  destruct (c_rstrip (c_lstrip (to_ascii val))) as [|h r].
  - reflexivity.
  - destruct (no_underscores (String h r)) as [d|] eqn:E; [|reflexivity].
    apply no_underscores_head in E as [r' ->].
    unfold blank in B. simpl in B. apply andb_true_iff in B as [Hh _].
    now rewrite (strtod_white_head h r' Hh).
Qed.

(** A value that converts is never skipped. *)
Lemma float_ok_not_skipped (val : string) :
  float_ok val = true -> skipped val = false.
Proof.
  intros H. destruct (skipped val) eqn:E; [|reflexivity].
  apply skipped_iff, float_ok_blank in E. congruence.
Qed.

(** ** The loop of [build_where] *)

(** Unfolding the loop on a list of one triple. *)
Ltac single_triple :=
  unfold build_where; cbn [fold_left]; unfold where_step;
  cbv beta iota zeta.

Ltac single_triple_in H :=
  unfold build_where in H; cbn [fold_left] in H; unfold where_step in H;
  cbv beta iota zeta in H.

Section Loop.

Variables col op val : string.

Lemma where_step_skipped (parts : list string) :
  skipped val = true -> where_step parts (col, op, val) = parts.
Proof.
  intros H. unfold where_step. now rewrite H.
Qed.

Lemma not_operator_tests :
  ~ In op operators ->
  mem op comparison_ops = false /\ (op =? "contains") = false
  /\ (op =? "starts_with") = false /\ (op =? "ends_with") = false
  /\ (op =? "in (comma separated)") = false.
Proof.
  intros H.
  assert (N : forall k, In k operators -> (op =? k) = false).
  { intros k Hk. apply String.eqb_neq. intros ->. exact (H Hk). }
  unfold mem, comparison_ops. simpl.
  rewrite !N by (simpl; tauto). repeat split; reflexivity.
Qed.

Lemma where_step_unknown (parts : list string) :
  ~ In op operators -> where_step parts (col, op, val) = parts.
Proof.
  intros H. unfold where_step. cbv beta iota zeta.
  destruct (not_operator_tests H) as (E1 & E2 & E3 & E4 & E5).
  rewrite E1, E2, E3, E4, E5. now destruct (skipped val).
Qed.

(** What a single triple compiles to when it is not skipped. *)
Lemma build_where_comparison :
  In op comparison_ops -> skipped val = false ->
  build_where [(col, op, val)] = compare_fragment (dq ++ col ++ dq) op val.
Proof.
  intros Hop Hs. single_triple.
  apply mem_In in Hop. now rewrite Hs, Hop.
Qed.

Lemma build_where_in :
  skipped val = false ->
  build_where [(col, "in (comma separated)", val)]
  = membership_test col (in_items val).
Proof.
  intros Hs. single_triple. rewrite Hs. reflexivity.
Qed.

Lemma build_where_of_skipped :
  skipped val = true -> build_where [(col, op, val)] = "".
Proof.
  intros Hs. single_triple. now rewrite Hs.
Qed.

End Loop.

(** A triple that leaves [where_parts] as it is can be taken out of the
    list of filters. *)
Lemma build_where_drop (l1 l2 : list filter_triple) (f : filter_triple) :
  (forall parts, where_step parts f = parts) ->
  build_where (l1 ++ f :: l2) = build_where (l1 ++ l2).
Proof.
  intros H. unfold build_where.
  rewrite !fold_left_app. simpl. now rewrite H.
Qed.

Lemma fold_where_all_blank (filters : list filter_triple) :
  Forall (fun f => blank (snd f)) filters ->
  forall parts, fold_left where_step filters parts = parts.
Proof.
  induction 1 as [|[[col op] val] l Hb _ IH]; intros parts; simpl.
  - reflexivity.
  - simpl in Hb. apply skipped_iff in Hb. rewrite Hb. apply IH.
Qed.

(** ** The items of the membership operator *)

Lemma in_items_spec (val : string) : in_items val = spec_in_items val.
Proof.
  unfold in_items, spec_in_items.
  exact (map_filter_swap strip truthy (split "," val)).
Qed.

Lemma item_not_blank_not_skipped (val : string) :
  (exists x, In x (split "," val) /\ ~ blank x) -> skipped val = false.
Proof.
  intros (x & Hx & Hnb). destruct (skipped val) eqn:E; [|reflexivity].
  apply skipped_iff in E. rewrite (blank_split val E) in Hx.
  destruct Hx as [<- | []]. contradiction.
Qed.

Lemma in_items_all_blank (val : string) :
  (forall x, In x (split "," val) -> blank x) -> in_items val = [].
Proof.
  unfold in_items. intros H.
  induction (split "," val) as [|x l IH]; simpl; [reflexivity|].
  assert (E : strip x = "") by (apply strip_empty_iff, H; now left).
  rewrite E. simpl. apply IH. intros y Hy. apply H. now right.
Qed.

(** ** Select boxes *)

Lemma length_pos (l : list string) : l <> [] -> 0 < length l.
Proof.
  destruct l; [congruence | simpl; lia].
Qed.

Lemma selectbox_empty (index : nat) (choice : option nat) :
  selectbox [] index choice = Ok None.
Proof.
  unfold selectbox. simpl.
  destruct choice as [i|]; now destruct index.
Qed.

Lemma list_index_member (x : string) (l : list string) :
  In x l -> exists i, list_index x l = Ok i /\ i < length l.
Proof.
  induction l as [|y l IH]; simpl; [intros []|].
  intros H. destruct (String.eqb_spec y x) as [_ | Hne].
  - exists 0. split; [reflexivity | lia].
  - destruct H as [H | H]; [contradiction|].
    destruct (IH H) as (i & -> & Hi). exists (S i).
    split; [reflexivity | lia].
Qed.

(** A select box over a non-empty list returns one of its options when
    its initial index is in range. *)
Lemma selectbox_member (options : list string) (index : nat)
    (choice : option nat) :
  options <> [] -> index < length options ->
  exists c, selectbox options index choice = Ok (Some c) /\ In c options.
Proof.
  intros Hne Hidx. unfold selectbox.
  apply Nat.ltb_lt in Hidx as Hb. rewrite Hb, andb_false_r.
  assert (D : exists c, nth_error options index = Some c /\ In c options).
  { destruct (nth_error options index) as [c|] eqn:E.
    - exists c. split; [reflexivity | now apply nth_error_In in E].
    - apply nth_error_None in E. lia. }
  destruct choice as [i|]; [|destruct D as (c & -> & Hc); now exists c].
  destruct (i <? length options)%nat eqn:Hi;
    [|destruct D as (c & -> & Hc); now exists c].
  apply Nat.ltb_lt in Hi.
  destruct (nth_error options i) as [c|] eqn:E.
  - exists c. split; [reflexivity | now apply nth_error_In in E].
  - apply nth_error_None in E. lia.
Qed.

Section Schema.

(** A table with at least one column. *)
Variable cols : list string.
Hypothesis cols_nonempty : cols <> [].

(** The index [pick_col] hands to the select box is in range. *)
Lemma pick_col_index (preferred : string) :
  exists idx,
    (if mem preferred cols then list_index preferred cols else Ok 0) = Ok idx
    /\ idx < length cols.
Proof.
  destruct (mem preferred cols) eqn:E.
  - apply mem_In in E. now apply list_index_member.
  - exists 0. split; [reflexivity | now apply length_pos].
Qed.

(** What the rows of widgets deliver: triples whose column is a column
    of the table and whose operator is one of the ten. *)
Lemma collect_filters_members (rows : list filter_row) :
  exists filters,
    collect_filters cols rows = Ok filters
    /\ Forall (fun f : filter_triple =>
                 In (fst (fst f)) cols /\ In (snd (fst f)) operators)
         filters.
Proof.
  induction rows as [|r rows (filters & E & F)].
  - exists []. split; [reflexivity | constructor].
  - destruct (selectbox_member cols 0 (col_choice r) cols_nonempty
                (length_pos _ cols_nonempty)) as (c & Ec & Hc).
    destruct (selectbox_member operators 0 (op_choice r))
      as (o & Eo & Ho); [discriminate | simpl; lia |].
    exists ((c, o, val_text r) :: filters).
    split; [|constructor; [now split | exact F]].
    cbn [collect_filters]. rewrite Ec. cbn [bind]. rewrite Eo. cbn [bind].
    rewrite E. reflexivity.
Qed.

Lemma column_refs_incl (filters : list filter_triple) :
  Forall (fun f : filter_triple =>
            In (fst (fst f)) cols /\ In (snd (fst f)) operators) filters ->
  forall c, In c (column_refs filters) -> In c cols.
Proof.
  intros F c Hc. unfold column_refs in Hc.
  apply in_map_iff in Hc as (f & <- & Hf). apply filter_In in Hf as [Hf _].
  rewrite Forall_forall in F. now apply F.
Qed.

End Schema.

(** ** Number inputs *)

Section NumberInput.

Variables lo hi : Z.

Lemma commit_bounds (current entry : Z) :
  (lo <= current <= hi)%Z -> (lo <= commit lo hi current entry <= hi)%Z.
Proof.
  intros H. unfold commit.
  destruct ((lo <=? entry) && (entry <=? hi))%Z eqn:E; [|exact H].
  apply andb_true_iff in E as [E1 E2]. lia.
Qed.

(** The value of a number input stays within its bounds. *)
Lemma number_input_bounds (value : Z) (entries : list Z) :
  (lo <= value <= hi)%Z ->
  (lo <= number_input lo hi value entries <= hi)%Z.
Proof.
  unfold number_input. revert value.
  induction entries as [|e entries IH]; intros value H; simpl;
    [exact H | apply IH, commit_bounds, H].
Qed.

End NumberInput.

(** ** Fragments *)

Lemma numeric_not_text (col op val op' val' : string) :
  numeric_comparison col op val <> text_comparison col op' val'.
Proof.
  unfold numeric_comparison, text_comparison. simpl. intros H.
  injection H as H. apply append_inv_head in H. discriminate H.
Qed.

(** Peels the text before the last line of a template, then evaluates. *)
Ltac ends_by_evaluation :=
  repeat first [ solve [vm_compute; reflexivity] | apply endswith_prepend ].

(* ================================================================== *)
(** * The claims of the specification *)

(** C1. For a triple with one of the six equality/ordering operators, the
    fragment the comparator emits is the numeric-typed comparison (column
    cast to DOUBLE, compared with the value as written) exactly when
    [float(val)] succeeds, and the text-typed comparison (column cast to
    VARCHAR, compared with the quoted value) exactly when it fails; the
    comparator is a total function, so neither case raises. This fragment
    is what [build_where] yields for the triple whenever the triple is
    compiled at all, and [build_where] yields the numeric comparison
    exactly when the value parses as a float. *)
Theorem comparison_numeric_iff_float (col op val : string) :
  In op comparison_ops ->
  let fragment := compare_fragment (dq ++ col ++ dq) op val in
  (fragment = numeric_comparison col op val <-> float_ok val = true)
  /\ (fragment = text_comparison col op val <-> float_ok val = false)
  /\ (skipped val = false -> build_where [(col, op, val)] = fragment)
  /\ (build_where [(col, op, val)] = numeric_comparison col op val
      <-> float_ok val = true).
Proof.
  intros Hop fragment.
  assert (Hnum : fragment = numeric_comparison col op val
                 <-> float_ok val = true).
  { subst fragment. unfold compare_fragment.
    destruct (float_ok val); split; intros H; try reflexivity.
    - symmetry in H. now apply numeric_not_text in H.
    - discriminate H. }
  assert (Htxt : fragment = text_comparison col op val
                 <-> float_ok val = false).
  { subst fragment. unfold compare_fragment.
    destruct (float_ok val); split; intros H; try reflexivity.
    - now apply numeric_not_text in H.
    - discriminate H. }
  assert (Hbw : skipped val = false -> build_where [(col, op, val)] = fragment)
    by (intros Hs; now apply build_where_comparison).
  repeat split; try tauto.
  - intros H. destruct (skipped val) eqn:Hs.
    + rewrite (build_where_of_skipped col op val Hs) in H. discriminate H.
    + apply Hnum. now rewrite <- Hbw.
  - intros H. rewrite Hbw by now apply float_ok_not_skipped.
    now apply Hnum.
Qed.

(** The filter [("Status", "=", "5")] of the specification's scenario 2,
    and a value that is no number. *)
Lemma comparison_numeric_iff_float_witness :
  In "=" comparison_ops
  /\ build_where [("Status", "=", "5")]
     = numeric_comparison "Status" "=" "5"
  /\ build_where [("Status", "=", "sent")]
     = text_comparison "Status" "=" "sent".
Proof.
  assert (H : In "=" comparison_ops) by (simpl; auto).
  split; [exact H|]. split.
  - apply (proj2 (proj2 (proj2
             (comparison_numeric_iff_float "Status" "=" "5" H)))).
    reflexivity.
  - destruct (comparison_numeric_iff_float "Status" "=" "sent" H)
      as (_ & Htxt & Hbw & _).
    rewrite Hbw by reflexivity. apply Htxt. reflexivity.
Defined.

(** C2. Whatever the other filters are, a triple whose value is empty or
    whitespace-only compiles to the same predicate as the list without
    that triple. *)
Theorem blank_value_is_omitted
    (before after : list filter_triple) (col op val : string) :
  blank val ->
  build_where (before ++ (col, op, val) :: after)
  = build_where (before ++ after).
Proof.
  intros H. apply build_where_drop. intros parts.
  apply where_step_skipped. now apply skipped_iff.
Qed.

Lemma blank_value_is_omitted_witness :
  blank "  "
  /\ build_where ([("A", "=", "5")] ++ ("B", "contains", "  ")
                    :: [("C", ">", "x")])
     = build_where ([("A", "=", "5")] ++ [("C", ">", "x")]).
Proof.
  assert (H : blank "  ") by reflexivity.
  split; [exact H|].
  exact (blank_value_is_omitted [("A", "=", "5")] [("C", ">", "x")]
           "B" "contains" "  " H).
Defined.

(** C3. For the operator "in (comma separated)" and a value with at
    least one item that is not whitespace, the compiled fragment is the
    membership test of the VARCHAR-cast column against the items obtained
    by splitting the value on commas, trimming each item and dropping the
    empty ones, in their order; a text is one of these items exactly when
    it is the trimmed form, not empty, of a comma-separated piece. *)
Theorem in_operator_membership (col val : string) :
  (exists x, In x (split "," val) /\ ~ blank x) ->
  build_where [(col, "in (comma separated)", val)]
  = membership_test col (spec_in_items val)
  /\ (forall x, In x (spec_in_items val)
                <-> exists raw, In raw (split "," val)
                                /\ x = strip raw /\ x <> "").
Proof.
  intros H. split.
  - rewrite build_where_in by now apply item_not_blank_not_skipped.
    now rewrite in_items_spec.
  - intros x. unfold spec_in_items. rewrite filter_In, in_map_iff.
    unfold truthy. rewrite negb_true_iff, String.eqb_neq.
    split.
    + intros [(raw & <- & Hraw) Hne]. now exists raw.
    + intros (raw & Hraw & -> & Hne). split; [now exists raw | exact Hne].
Qed.

(** The value ["a, b ,c"] of the specification. *)
Lemma in_operator_membership_witness :
  (exists x, In x (split "," "a, b ,c") /\ ~ blank x)
  /\ build_where [("Name", "in (comma separated)", "a, b ,c")]
     = membership_test "Name" ["a"; "b"; "c"].
Proof.
  assert (H : exists x, In x (split "," "a, b ,c") /\ ~ blank x).
  { exists "a". split; [simpl; auto | discriminate]. }
  split; [exact H|].
  exact (proj1 (in_operator_membership "Name" "a, b ,c" H)).
Defined.

(** The degenerate case of the membership operator: for a value that is
    not skipped but whose comma-separated items are all empty once
    trimmed, the fragment [build_where] emits is the membership test with
    an empty list of literals, [IN ()]. What the query engine makes of
    that text is outside this development. *)
Theorem in_operator_no_item (col val : string) :
  skipped val = false ->
  (forall x, In x (split "," val) -> blank x) ->
  build_where [(col, "in (comma separated)", val)]
  = "CAST(" ++ (dq ++ col ++ dq) ++ " AS VARCHAR) IN ()".
Proof.
  intros Hs H. rewrite build_where_in by exact Hs.
  now rewrite in_items_all_blank.
Qed.

Lemma in_operator_no_item_witness :
  skipped " , " = false
  /\ (forall x, In x (split "," " , ") -> blank x)
  /\ build_where [("Name", "in (comma separated)", " , ")]
     = "CAST(" ++ (dq ++ "Name" ++ dq) ++ " AS VARCHAR) IN ()".
Proof.
  assert (Hs : skipped " , " = false) by reflexivity.
  assert (Hb : forall x, In x (split "," " , ") -> blank x).
  { simpl. intros x [<- | [<- | []]]; reflexivity. }
  split; [exact Hs|]. split; [exact Hb|].
  exact (in_operator_no_item "Name" " , " Hs Hb).
Defined.

(** C5. When there is no filter, or every filter has an empty or
    whitespace-only value, the compiled predicate is empty, [where_sql]
    is empty, and the assembled text has an empty line where the WHERE
    clause would stand: selection, FROM, grouping and limit only. *)
Theorem no_filter_no_where
    (metric : string) (filters : list filter_triple)
    (group_by : list string) (limit : Z) :
  Forall (fun f => blank (snd f)) filters ->
  build_where filters = ""
  /\ where_sql filters = ""
  /\ sql_preview metric filters group_by limit
     = nl ++ "SELECT " ++ select_sql metric ++ nl
       ++ "FROM data" ++ nl
       ++ nl
       ++ group_sql group_by ++ nl
       ++ "LIMIT " ++ str_of_int limit ++ ";" ++ nl.
Proof.
  intros H.
  assert (E : build_where filters = "").
  { unfold build_where. now rewrite fold_where_all_blank. }
  assert (W : where_sql filters = "").
  { unfold where_sql. now rewrite E. }
  repeat split; [exact E | exact W |].
  unfold sql_preview. now rewrite W.
Qed.

Lemma no_filter_no_where_witness :
  Forall (fun f : filter_triple => blank (snd f))
    [("A", "=", ""); ("B", "contains", "   ")]
  /\ where_sql [("A", "=", ""); ("B", "contains", "   ")] = ""
  /\ where_sql [] = "".
Proof.
  assert (H : Forall (fun f : filter_triple => blank (snd f))
                [("A", "=", ""); ("B", "contains", "   ")]).
  { repeat constructor. }
  split; [exact H|]. split.
  - exact (proj1 (proj2 (no_filter_no_where "Show rows" _ [] 1000 H))).
  - exact (proj1 (proj2 (no_filter_no_where "Show rows" [] [] 1000
                           (Forall_nil _)))).
Defined.

(** C6, as the specification states it, fails: [build_where] compiles a
    filter on a column that the table does not have, where a compiler
    that checked the schema would reject the query. *)
Lemma schema_check_counterexample :
  let cols := ["Status"] in
  let filters := [("Missing", "=", "1")] in
  build_where filters = numeric_comparison "Missing" "=" "1"
  /\ In "Missing" (column_refs filters)
  /\ ~ In "Missing" cols
  /\ checked_build_where cols filters <> Some (build_where filters).
Proof.
  repeat split.
  - simpl. auto.
  - simpl. intros [H | []]. discriminate H.
  - discriminate.
Qed.

(** C6, amended. [build_where] checks no column and rejects nothing; in
    the generic filter builder the column of every filter is the value of
    a select box over the table's columns, so for a table with at least
    one column the widgets deliver filters whose column references all
    exist in the schema, and on them [build_where] yields what a
    schema-checking compiler yields. *)
Theorem filter_columns_from_schema
    (cols : list string) (rows : list filter_row) :
  cols <> [] ->
  exists filters,
    collect_filters cols rows = Ok filters
    /\ (forall c, In c (column_refs filters) -> In c cols)
    /\ checked_build_where cols filters = Some (build_where filters).
Proof.
  intros Hne.
  destruct (collect_filters_members cols Hne rows) as (filters & E & F).
  exists filters. split; [exact E|].
  pose proof (column_refs_incl cols filters F) as I.
  split; [exact I|].
  unfold checked_build_where.
  replace (forallb (fun c => mem c cols) (column_refs filters)) with true;
    [reflexivity|].
  symmetry. apply forallb_forall. intros c Hc. now apply mem_In, I.
Qed.

Lemma filter_columns_from_schema_witness :
  ["Status"; "Name"] <> []
  /\ exists filters,
       collect_filters ["Status"; "Name"]
         [ {| col_choice := Some 1; op_choice := Some 6; val_text := "x" |} ]
       = Ok filters
       /\ (forall c, In c (column_refs filters) -> In c ["Status"; "Name"])
       /\ checked_build_where ["Status"; "Name"] filters
          = Some (build_where filters).
Proof.
  assert (H : ["Status"; "Name"] <> []) by discriminate.
  split; [exact H|].
  exact (filter_columns_from_schema ["Status"; "Name"] _ H).
Defined.

(** C7, as the specification states it, fails: the template behind
    "Lowest success-rate domains", a preset of the sheet "Domains w Lower
    Deliverability", ends with LIMIT 25, and with none of LIMIT 10, 15,
    20 or 30. *)
Lemma preset_limit_counterexample :
  In LowestSuccessRateDomains
    (presets_of_sheet "Domains w Lower Deliverability")
  /\ (forall m, endswith (preset_sql LowestSuccessRateDomains m)
                  (limit_clause 25 ++ nl ++ ind) = true)
  /\ ~ (exists n, In n [10; 15; 20; 30]%Z
                  /\ forall m, endswith (preset_sql LowestSuccessRateDomains m)
                                 (limit_clause n ++ nl ++ ind) = true).
Proof.
  split; [simpl; auto|].
  split; [intros m; reflexivity|].
  intros (n & Hn & H).
  specialize (H (Build_role_cols None None None None None None)).
  simpl in Hn.
  destruct Hn as [<- | [<- | [<- | [<- | []]]]]; vm_compute in H;
    discriminate H.
Qed.

(** C7, amended. Every preset template ends with a row limit that is
    fixed by the preset alone, whatever the columns the roles resolve to,
    and that limit is one of 10, 15, 20, 25 or 30. *)
Theorem preset_limit_is_fixed (p : preset) :
  exists n, In n [10; 15; 20; 25; 30]%Z
            /\ forall m, endswith (preset_sql p m)
                           (limit_clause n ++ nl ++ ind) = true.
Proof.
  destruct p;
    [ exists 10%Z | exists 15%Z | exists 20%Z | exists 20%Z | exists 30%Z
    | exists 25%Z | exists 25%Z ];
    (split; [simpl; tauto | intros m; unfold preset_sql; ends_by_evaluation]).
Qed.

(** For a role of [default_map]: when the preferred column name is absent
    from the schema, [pick_col] selects the table's first column; and,
    present or absent, whatever the user does with the box, [pick_col]
    raises nothing and, the table having a column, returns a column of
    the table. *)
Lemma pick_col_falls_back (cols : list string) (key preferred : string) :
  dict_get default_map key = Ok preferred ->
  (~ In preferred cols -> pick_col cols key None = Ok (hd_error cols))
  /\ (forall choice,
        exists r, pick_col cols key choice = Ok r
                  /\ (cols <> [] -> exists c, r = Some c /\ In c cols)).
Proof.
  intros Hkey. unfold pick_col. rewrite Hkey. cbn [bind]. split.
  - intros Habs. apply mem_false in Habs. rewrite Habs. cbn [bind].
    destruct cols as [|c cols]; reflexivity.
  - intros choice. destruct cols as [|c0 cols'] eqn:Ecols.
    + exists None. split; [|congruence].
      unfold mem. cbn [existsb bind]. apply selectbox_empty.
    + rewrite <- Ecols.
      assert (Hne : cols <> []) by (rewrite Ecols; discriminate).
      destruct (pick_col_index cols Hne preferred) as (idx & -> & Hidx).
      cbn [bind].
      destruct (selectbox_member cols idx choice Hne Hidx) as (c & -> & Hc).
      exists (Some c). split; [reflexivity|]. intros _. now exists c.
Qed.

Lemma resolve_roles_members (cols : list string) (ch : role_choices) :
  cols <> [] ->
  exists d r u c t v,
    resolve_roles cols ch
    = Ok {| col_domain := Some d; col_reason := Some r; col_user := Some u;
            col_smtp := Some c; col_date := Some t; col_server := Some v |}
    /\ In d cols /\ In r cols /\ In u cols
    /\ In c cols /\ In t cols /\ In v cols.
Proof.
  intros Hne.
  assert (P : forall key preferred choice,
             dict_get default_map key = Ok preferred ->
             exists x, pick_col cols key choice = Ok (Some x) /\ In x cols).
  { intros key preferred choice K.
    destruct (proj2 (pick_col_falls_back cols key preferred K) choice)
      as (r & E & M).
    destruct (M Hne) as (x & -> & Hx). now exists x. }
  destruct (P "domain" _ (pick_domain ch) eq_refl) as (d & Ed & Hd).
  destruct (P "reason" _ (pick_reason ch) eq_refl) as (r & Er & Hr).
  destruct (P "user" _ (pick_user ch) eq_refl) as (u & Eu & Hu).
  destruct (P "smtp" _ (pick_smtp ch) eq_refl) as (c & Ec & Hc).
  destruct (P "date" _ (pick_date ch) eq_refl) as (t & Et & Ht).
  destruct (P "server" _ (pick_server ch) eq_refl) as (v & Ev & Hv).
  exists d, r, u, c, t, v. unfold resolve_roles.
  rewrite Ed, Er, Eu, Ec, Et, Ev. cbn [bind]. now repeat split.
Qed.

(** Each column of [preset_columns] is written in the text of the
    template. *)
Lemma preset_columns_in_text (p : preset) (m : role_cols) (c : string) :
  In c (preset_columns p m) ->
  exists pre post, preset_sql p m = pre ++ c ++ post.
Proof.
  destruct p; simpl; intros H;
    repeat (destruct H as [<- | H]; [|try contradiction]);
    try contradiction;
    unfold line, quoted_col.
  - exists (nl ++ ind ++ "SELECT " ++ dq). eexists.
    repeat (simpl; rewrite ?append_assoc). reflexivity.
  - exists (nl ++ ind ++ "SELECT " ++ dq). eexists.
    repeat (simpl; rewrite ?append_assoc). reflexivity.
  - exists (nl ++ ind ++ "SELECT " ++ dq). eexists.
    repeat (simpl; rewrite ?append_assoc). reflexivity.
  - exists (nl ++ ind ++ "SELECT " ++ dq). eexists.
    repeat (simpl; rewrite ?append_assoc). reflexivity.
  - exists (nl ++ ind ++ "SELECT CAST(" ++ dq). eexists.
    repeat (simpl; rewrite ?append_assoc). reflexivity.
  - exists (nl ++ ind ++ "SELECT "). eexists. reflexivity.
  - exists (nl ++ ind ++ "SELECT Domain, "). eexists. reflexivity.
  - exists (nl ++ ind ++ "SELECT Domain, Recipients, "). eexists.
    reflexivity.
  - exists (nl ++ ind ++ "SELECT Domain, Recipients, Delivered, " ++ dq).
    eexists. reflexivity.
  - exists (nl ++ ind ++ "SELECT "). eexists. reflexivity.
  - exists (nl ++ ind ++ "SELECT Domain, "). eexists. reflexivity.
  - exists (nl ++ ind ++ "SELECT Domain, Recipients, "). eexists.
    reflexivity.
  - exists (nl ++ ind ++ "SELECT Domain, Recipients, Delivered, " ++ dq).
    eexists. reflexivity.
Qed.

(** C8, as the specification states it, fails: on a sheet "Domains w
    Lower Deliverability" whose columns are Name and Count, the roles
    resolve (each to the first column), yet the preset "Lowest
    success-rate domains" resolves nothing: its text names the column
    Domain, which the table does not have. *)
Lemma fixed_preset_counterexample :
  let cols := ["Name"; "Count"] in
  let untouched := Build_role_choices None None None None None None in
  In LowestSuccessRateDomains
    (presets_of_sheet "Domains w Lower Deliverability")
  /\ exists m,
       resolve_roles cols untouched = Ok m
       /\ In "Domain" (preset_columns LowestSuccessRateDomains m)
       /\ ~ In "Domain" cols
       /\ exists pre post,
            preset_sql LowestSuccessRateDomains m = pre ++ "Domain" ++ post.
Proof.
  split; [simpl; tauto|].
  eexists. split; [reflexivity|]. split; [simpl; tauto|]. split.
  - simpl. intros [H | [H | []]]; discriminate H.
  - apply preset_columns_in_text. simpl. tauto.
Qed.

(** C8, amended. For every role of [default_map], [pick_col] falls back to
    the table's first column whenever the preferred column name is absent
    from the schema; so, for a table with at least one column and
    whatever the user does with the six boxes, the roles resolve without
    anything being raised and every preset of the sheet "Failure
    Details", the presets whose columns come from [pick_col], names only
    columns of the table. *)
Theorem failure_details_presets_resolve
    (cols : list string) (ch : role_choices) :
  cols <> [] ->
  (forall key preferred,
     dict_get default_map key = Ok preferred -> ~ In preferred cols ->
     pick_col cols key None = Ok (hd_error cols))
  /\ exists m,
       resolve_roles cols ch = Ok m
       /\ forall p, In p (presets_of_sheet "Failure Details") ->
                    forall c, In c (preset_columns p m) -> In c cols.
Proof.
  intros Hne. split.
  - intros key preferred K A.
    exact (proj1 (pick_col_falls_back cols key preferred K) A).
  - destruct (resolve_roles_members cols ch Hne)
      as (d & r & u & c & t & v & E & Hd & Hr & Hu & Hc & Ht & Hv).
    eexists. split; [exact E|].
    intros p Hp x Hx. simpl in Hp.
    repeat (destruct Hp as [<- | Hp];
            [simpl in Hx; destruct Hx as [<- | []]; assumption|]).
    destruct Hp.
Qed.

(** Scenario 4 of the specification: no "To Domain" among the columns. *)
Lemma failure_details_presets_resolve_witness :
  ["Recipient"; "Reason"] <> []
  /\ pick_col ["Recipient"; "Reason"] "domain" None = Ok (Some "Recipient")
  /\ exists m,
       resolve_roles ["Recipient"; "Reason"]
         (Build_role_choices None (Some 1) None None None None) = Ok m
       /\ forall c, In c (preset_columns Top10FailingDomains m) ->
                    In c ["Recipient"; "Reason"].
Proof.
  assert (H : ["Recipient"; "Reason"] <> []) by discriminate.
  destruct (failure_details_presets_resolve ["Recipient"; "Reason"]
              (Build_role_choices None (Some 1) None None None None) H)
    as (F & m & E & P).
  split; [exact H|]. split.
  - apply (F "domain" "To Domain"); [reflexivity|].
    simpl. intros [A | [A | []]]; discriminate A.
  - exists m. split; [exact E|]. apply P. simpl. tauto.
Defined.

(** C9. Whatever the projection, the filters, the grouping and the
    entries made in the "Limit" input, the assembled query ends with the
    clause LIMIT n; (and the final line break), n being the value of the
    input, an integer with 1 <= n <= 100000. *)
Theorem limit_always_present
    (metric : string) (filters : list filter_triple)
    (group_by : list string) (entries : list Z) :
  let limit := number_input LIMIT_MIN LIMIT_MAX LIMIT_VALUE entries in
  (1 <= limit <= 100000)%Z
  /\ endswith (sql_preview metric filters group_by limit)
       (limit_clause limit ++ nl) = true.
Proof.
  intros limit. split.
  - apply (number_input_bounds LIMIT_MIN LIMIT_MAX LIMIT_VALUE entries).
    unfold LIMIT_MIN, LIMIT_MAX, LIMIT_VALUE. lia.
  - apply endswith_iff.
    exists (nl ++ "SELECT " ++ select_sql metric ++ nl ++ "FROM data" ++ nl
            ++ where_sql filters ++ nl ++ group_sql group_by ++ nl).
    unfold sql_preview, limit_clause. now rewrite !append_assoc.
Qed.

(** C10. A triple whose operator is none of the ten operators emits no
    fragment and raises nothing, whatever its value (so in particular for
    a non-empty one): the predicate is that of the list without the
    triple, which is also that of the list where its value is empty. *)
Theorem unknown_operator_is_skipped
    (before after : list filter_triple) (col op val : string) :
  ~ In op operators ->
  build_where (before ++ (col, op, val) :: after)
  = build_where (before ++ after)
  /\ build_where (before ++ (col, op, val) :: after)
     = build_where (before ++ (col, op, "") :: after).
Proof.
  intros H.
  assert (E : forall v, build_where (before ++ (col, op, v) :: after)
                        = build_where (before ++ after)).
  { intros v. apply build_where_drop. intros parts.
    now apply where_step_unknown. }
  split; [apply E | now rewrite !E].
Qed.

Lemma unknown_operator_is_skipped_witness :
  ~ In "like" operators
  /\ build_where ([("A", "=", "5")] ++ ("B", "like", "x%") :: [])
     = build_where ([("A", "=", "5")] ++ []).
Proof.
  assert (H : ~ In "like" operators).
  { simpl. intros H. repeat (destruct H as [H | H]; [discriminate H|]).
    exact H. }
  split; [exact H|].
  exact (proj1 (unknown_operator_is_skipped [("A", "=", "5")] []
                  "B" "like" "x%" H)).
Defined.

(* ================================================================== *)
(** * Further properties of the code *)

(** ** The list of fragments *)

Lemma where_step_acc (parts : list string) (f : filter_triple) :
  where_step parts f = (parts ++ where_step [] f)%list.
Proof.
  destruct f as [[col op] val]. unfold where_step, list_append.
  repeat match goal with
         | |- context [if ?b then _ else _] => destruct b
         end;
    simpl; now rewrite ?app_nil_r.
Qed.

Lemma fold_where_acc (filters : list filter_triple) :
  forall parts,
    fold_left where_step filters parts
    = (parts ++ where_parts_of filters)%list.
Proof.
  unfold where_parts_of.
  induction filters as [|f l IH]; intros parts; simpl.
  - now rewrite app_nil_r.
  - rewrite (IH (where_step parts f)), (IH (where_step [] f)).
    rewrite (where_step_acc parts f). now rewrite app_assoc.
Qed.

Lemma where_parts_app (l1 l2 : list filter_triple) :
  where_parts_of (l1 ++ l2) = (where_parts_of l1 ++ where_parts_of l2)%list.
Proof.
  unfold where_parts_of at 1. rewrite fold_left_app.
  apply fold_where_acc.
Qed.

(** Case analysis on the tests [op == k] of the chain. *)
Ltac split_operator op :=
  repeat match goal with
         | |- context [String.eqb op ?k] =>
             destruct (String.eqb op k); cbn [orb andb negb]
         end.

(** A triple leaves one fragment, the one it compiles to alone, or none. *)
Lemma where_step_emits (f : filter_triple) :
  where_step [] f = if emits f then [build_where [f]] else [].
Proof.
  destruct f as [[col op] val].
  unfold emits, build_where. cbn [fold_left].
  unfold where_step, list_append, mem, comparison_ops, operators.
  cbn [existsb app].
  destruct (skipped val); cbn [negb andb]; [reflexivity|].
  split_operator op; reflexivity.
Qed.

Lemma where_parts_emits (filters : list filter_triple) :
  where_parts_of filters
  = map (fun f => build_where [f]) (filter emits filters).
Proof.
  induction filters as [|f l IH]; [reflexivity|].
  change (f :: l) with ([f] ++ l)%list. rewrite where_parts_app, IH.
  unfold where_parts_of at 1. cbn [fold_left]. rewrite where_step_emits.
  cbn [app filter]. now destruct (emits f).
Qed.

(** Every fragment is a comparison of the cast of its own column. *)
Lemma fragment_head (col op val : string) :
  emits (col, op, val) = true ->
  exists ty rest,
    In ty ["DOUBLE"; "VARCHAR"]
    /\ build_where [(col, op, val)]
       = "CAST(" ++ (dq ++ col ++ dq) ++ " AS " ++ ty ++ ")" ++ rest.
Proof.
  unfold emits, build_where. cbn [fold_left].
  unfold where_step, list_append, mem, comparison_ops, operators,
    compare_fragment.
  cbn [existsb app].
  destruct (skipped val); cbn [negb andb]; [discriminate|].
  split_operator op; intros H; try discriminate H;
    try destruct (float_ok val);
    match goal with
    | |- context [" AS DOUBLE) "] => exists "DOUBLE"
    | _ => exists "VARCHAR"
    end;
    eexists; (split; [simpl; tauto | reflexivity]).
Qed.

Lemma fragment_not_empty (f : filter_triple) :
  emits f = true -> build_where [f] <> "".
Proof.
  destruct f as [[col op] val]. intros H.
  destruct (fragment_head col op val H) as (ty & rest & _ & E).
  intros N. pose proof (eq_trans (eq_sym E) N) as X. discriminate X.
Qed.

Lemma join_cons_not_empty (sep x : string) (l : list string) :
  x <> "" -> join sep (x :: l) <> "".
Proof.
  intros Hx. unfold join. simpl. destruct l; [exact Hx|].
  destruct x; [contradiction | discriminate].
Qed.

Lemma join_app (sep : string) (a b : list string) :
  a <> [] -> b <> [] ->
  join sep (a ++ b) = join sep a ++ sep ++ join sep b.
Proof.
  unfold join. intros Ha Hb.
  induction a as [|x a IH]; [contradiction|].
  destruct a as [|y a].
  - simpl. destruct b; [contradiction | reflexivity].
  - change (String.concat sep ((x :: y :: a) ++ b))
      with (x ++ sep ++ String.concat sep ((y :: a) ++ b)).
    change (String.concat sep (x :: y :: a))
      with (x ++ sep ++ String.concat sep (y :: a)).
    rewrite IH by discriminate. now rewrite !append_assoc.
Qed.

(** The predicate is empty exactly when no fragment was appended. *)
Lemma build_where_empty_iff (filters : list filter_triple) :
  build_where filters = "" <-> where_parts_of filters = [].
Proof.
  change (build_where filters) with (join " AND " (where_parts_of filters)).
  split; [|now intros ->].
  rewrite where_parts_emits.
  destruct (filter emits filters) as [|f l] eqn:E; [reflexivity|].
  intros H. exfalso. cbn [map] in H.
  apply join_cons_not_empty in H; [exact H|].
  apply fragment_not_empty.
  assert (I : In f (filter emits filters)) by (rewrite E; now left).
  now apply filter_In in I.
Qed.

Lemma emits_false_iff (col op val : string) :
  emits (col, op, val) = false <-> blank val \/ ~ In op operators.
Proof.
  unfold emits. rewrite andb_false_iff, negb_false_iff, skipped_iff.
  now rewrite mem_false.
Qed.

Lemma append_empty_r (a : string) : a ++ "" = a.
Proof.
  induction a as [|x a IH]; simpl; [reflexivity | now rewrite IH].
Qed.

Lemma join_head (sep x : string) (l : list string) :
  exists tail, join sep (x :: l) = x ++ tail.
Proof.
  unfold join. destruct l as [|y l]; simpl.
  - exists "". now rewrite append_empty_r.
  - now eexists.
Qed.

(** X1. The predicate of a list of filters is the conjunction, in the
    order of the list, of what each triple compiles to on its own, over
    the triples that have a value that is not skipped and one of the ten
    operators. *)
Theorem build_where_by_triple (filters : list filter_triple) :
  build_where filters
  = join " AND " (map (fun f => build_where [f]) (filter emits filters)).
Proof.
  change (build_where filters) with (join " AND " (where_parts_of filters)).
  now rewrite where_parts_emits.
Qed.

(** X2. Compiling two lists of filters one after the other: when one of
    them compiles to the empty predicate the result is the predicate of
    the other, otherwise it is the two predicates joined by " AND ". *)
Theorem build_where_app (l1 l2 : list filter_triple) :
  build_where (l1 ++ l2)
  = if build_where l1 =? "" then build_where l2
    else if build_where l2 =? "" then build_where l1
    else build_where l1 ++ " AND " ++ build_where l2.
Proof.
  change (build_where (l1 ++ l2))
    with (join " AND " (where_parts_of (l1 ++ l2))).
  rewrite where_parts_app.
  destruct (String.eqb_spec (build_where l1) "") as [E1 | N1].
  - apply build_where_empty_iff in E1. now rewrite E1.
  - destruct (String.eqb_spec (build_where l2) "") as [E2 | N2].
    + apply build_where_empty_iff in E2. now rewrite E2, app_nil_r.
    + apply join_app.
      * intros E. apply N1. now apply build_where_empty_iff.
      * intros E. apply N2. now apply build_where_empty_iff.
Qed.

(** X3. The WHERE clause is absent exactly when every triple has an
    empty or whitespace-only value or an operator outside the ten;
    otherwise it reads WHERE followed by the cast of the quoted column of
    one of the filters: never a bare WHERE, never a leading AND. *)
Theorem where_sql_absent_or_cast (filters : list filter_triple) :
  (where_sql filters = ""
   <-> Forall (fun f : filter_triple =>
                 blank (snd f) \/ ~ In (snd (fst f)) operators) filters)
  /\ (where_sql filters = ""
      \/ exists col op val rest,
           In (col, op, val) filters
           /\ where_sql filters
              = "WHERE CAST(" ++ (dq ++ col ++ dq) ++ " AS " ++ rest).
Proof.
  assert (W : where_sql filters = "" <-> filter emits filters = []).
  { unfold where_sql, truthy.
    destruct (String.eqb_spec (build_where filters) "") as [E | N];
      cbn [negb].
    - apply build_where_empty_iff in E. rewrite where_parts_emits in E.
      split; [intros _ | reflexivity].
      now destruct (filter emits filters).
    - split; [discriminate|]. intros E. exfalso. apply N.
      apply build_where_empty_iff. now rewrite where_parts_emits, E. }
  split.
  - rewrite W, Forall_forall. split.
    + intros E [[col op] val] Hin. cbn [fst snd].
      apply (emits_false_iff col op val).
      destruct (emits (col, op, val)) eqn:Em; [|reflexivity].
      assert (I : In (col, op, val) (filter emits filters))
        by now apply filter_In.
      rewrite E in I. destruct I.
    + intros H. destruct (filter emits filters) as [|f l] eqn:E;
        [reflexivity|].
      assert (I : In f (filter emits filters)) by (rewrite E; now left).
      apply filter_In in I as [Hin Em]. destruct f as [[col op] val].
      apply H in Hin. cbn [fst snd] in Hin.
      apply (emits_false_iff col op val) in Hin. congruence.
  - destruct (filter emits filters) as [|f l] eqn:E.
    + left. now apply W.
    + right. assert (I : In f (filter emits filters)) by (rewrite E; now left).
      apply filter_In in I as [Hin Em]. destruct f as [[col op] val].
      exists col, op, val.
      destruct (fragment_head col op val Em) as (ty & rest & _ & F).
      destruct (join_head " AND " (build_where [(col, op, val)])
                  (map (fun f => build_where [f]) l)) as [tail T].
      exists (ty ++ ")" ++ rest ++ tail). split; [exact Hin|].
      unfold where_sql, truthy.
      destruct (String.eqb_spec (build_where filters) "") as [E0 | N];
        cbn [negb].
      * apply build_where_empty_iff in E0.
        rewrite where_parts_emits, E in E0. discriminate E0.
      * assert (J : join " AND " (where_parts_of filters)
                    = build_where [(col, op, val)] ++ tail).
        { rewrite where_parts_emits, E. exact T. }
        change (build_where filters)
          with (join " AND " (where_parts_of filters)).
        rewrite J, F.
        repeat (simpl; rewrite ?append_assoc). reflexivity.
Qed.

(** ** The texts [float] accepts *)

Lemma all_chars_cons (p : ascii -> bool) (c : ascii) (s : string) :
  all_chars p (String c s) <-> p c = true /\ all_chars p s.
Proof.
  unfold all_chars. simpl. apply andb_true_iff.
Qed.

Lemma all_chars_empty (p : ascii -> bool) : all_chars p "".
Proof. reflexivity. Qed.

Lemma float_char_digit (c : ascii) : is_digit c = true -> float_char c = true.
Proof.
  intros H. unfold float_char. now rewrite H.
Qed.

Lemma float_char_space (c : ascii) : isspace c = true -> float_char c = true.
Proof.
  intros H. unfold float_char. rewrite H. now rewrite orb_true_r.
Qed.

Lemma float_char_letter (c ct : ascii) :
  Ascii.eqb (to_lower c) ct = true -> In ct float_letters ->
  float_char c = true.
Proof.
  intros E Hin. unfold float_char. apply orb_true_iff. right.
  apply existsb_exists. exists ct. now split.
Qed.

Lemma float_char_is (c k : ascii) :
  Ascii.eqb c k = true -> float_char k = true -> float_char c = true.
Proof.
  intros E. apply Ascii.eqb_eq in E. now subst.
Qed.

Lemma c_isspace_isspace (c : ascii) : c_isspace c = true -> isspace c = true.
Proof.
  destruct c as [[] [] [] [] [] [] [] []]; intros H;
    solve [discriminate H | reflexivity].
Qed.

Lemma is_zero_digit (c : ascii) : is_zero c = true -> is_digit c = true.
Proof.
  unfold is_zero. intros H. apply Ascii.eqb_eq in H. now subst.
Qed.

(** What [span] leaves behind, and what it consumed. *)
Lemma span_chars (p q : ascii -> bool) (s : string) :
  (forall c, p c = true -> q c = true) ->
  forall n t, span p s = (n, t) -> all_chars q t -> all_chars q s.
Proof.
  intros Hpq. induction s as [|c s IH]; intros n t; simpl.
  - now intros [= <- <-].
  - destruct (p c) eqn:Hc.
    + destruct (span p s) as [m u]. intros [= <- <-] Hu.
      apply all_chars_cons. split; [now apply Hpq | now apply (IH m u)].
    + now intros [= <- <-].
Qed.

Lemma span_zero_chars (s : string) (n : nat) (t : string) :
  span is_zero s = (n, t) ->
  all_chars float_char t -> all_chars float_char s.
Proof.
  apply span_chars. intros c H. now apply float_char_digit, is_zero_digit.
Qed.

Lemma span_digit_chars (s : string) (n : nat) (t : string) :
  span is_digit s = (n, t) ->
  all_chars float_char t -> all_chars float_char s.
Proof.
  apply span_chars. exact float_char_digit.
Qed.

Lemma drop_sign_chars (s : string) :
  all_chars float_char (drop_sign s) -> all_chars float_char s.
Proof.
  destruct s as [|c r]; [easy|]. simpl.
  destruct (Ascii.eqb c "-") eqn:E1; simpl.
  - intros H. apply all_chars_cons. split; [|exact H].
    now apply (float_char_is c "-").
  - destruct (Ascii.eqb c "+") eqn:E2; [|easy].
    intros H. apply all_chars_cons. split; [|exact H].
    now apply (float_char_is c "+").
Qed.

Lemma ci_match_chars (t : string) :
  (forall c, In c (list_ascii_of_string t) -> In c float_letters) ->
  forall s r, ci_match s t = Some r ->
              all_chars float_char r -> all_chars float_char s.
Proof.
  induction t as [|ct t IH]; intros Ht s r.
  - destruct s; simpl; now intros [= <-].
  - destruct s as [|cs s]; simpl; [discriminate|].
    destruct (Ascii.eqb (to_lower cs) ct) eqn:E; [|discriminate].
    intros H Hr. apply all_chars_cons. split.
    + apply (float_char_letter cs ct E). apply Ht. now left.
    + apply (IH (fun c Hc => Ht c (or_intror Hc)) s r H Hr).
Qed.

Ltac letters_known :=
  let c := fresh "c" in
  let H := fresh "H" in
  intros c H; simpl in H;
  repeat (destruct H as [<- | H]; [simpl; tauto|]); destruct H.

Lemma parse_inf_or_nan_chars (s r : string) :
  parse_inf_or_nan s = Some r ->
  all_chars float_char r -> all_chars float_char s.
Proof.
  unfold parse_inf_or_nan. intros H Hr. apply drop_sign_chars.
  destruct (ci_match (drop_sign s) "inf") as [r1|] eqn:E1.
  - apply (ci_match_chars "inf" ltac:(letters_known) _ r1 E1).
    destruct (ci_match r1 "inity") as [r2|] eqn:E2.
    + injection H as <-.
      now apply (ci_match_chars "inity" ltac:(letters_known) _ r2 E2).
    + now injection H as <-.
  - now apply (ci_match_chars "nan" ltac:(letters_known) _ r H).
Qed.

Lemma parse_exponent_chars (s : string) :
  all_chars float_char (parse_exponent s) -> all_chars float_char s.
Proof.
  destruct s as [|c r]; [easy|]. unfold parse_exponent.
  destruct (Ascii.eqb c "e" || Ascii.eqb c "E") eqn:E; [|easy].
  destruct (span is_zero (drop_sign r)) as [nz r1] eqn:E1.
  destruct (span is_digit r1) as [nd r2] eqn:E2.
  destruct ((nd =? 0)%nat && (nz =? 0)%nat); [easy|].
  intros H. apply all_chars_cons. split.
  - apply orb_true_iff in E as [E | E].
    + now apply (float_char_is c "e").
    + now apply (float_char_is c "E").
  - apply drop_sign_chars, (span_zero_chars _ _ _ E1),
      (span_digit_chars _ _ _ E2), H.
Qed.

Lemma parse_decimal_chars (s r : string) :
  parse_decimal s = Some r ->
  all_chars float_char r -> all_chars float_char s.
Proof.
  unfold parse_decimal. intros H Hr.
  destruct (span is_zero (drop_sign s)) as [lz s1] eqn:E1.
  destruct (span is_digit s1) as [nd s2] eqn:E2.
  apply drop_sign_chars, (span_zero_chars _ _ _ E1),
    (span_digit_chars _ _ _ E2).
  destruct s2 as [|c r0]; [apply all_chars_empty|].
  destruct (Ascii.eqb_spec c ".") as [-> | Hne].
  - destruct (if (nd =? 0)%nat then span is_zero r0 else (0, r0))
      as [fz r1] eqn:E3.
    destruct (span is_digit r1) as [fd r2] eqn:E4.
    assert (A2 : all_chars float_char r2).
    { repeat match type of H with
             | context [if ?b then _ else _] => destruct b
             end; try discriminate H.
      injection H as <-. now apply parse_exponent_chars. }
    apply all_chars_cons. split; [reflexivity|].
    apply (span_digit_chars _ _ _ E4) in A2.
    destruct (nd =? 0)%nat.
    + now apply (span_zero_chars _ _ _ E3).
    + now injection E3 as _ <-.
  - assert (D : (if (nd =? 0)%nat && negb (0 <? lz)%nat then None
                 else if ((MAX_DIGITS <? N.of_nat nd)
                          || (MAX_DIGITS <? N.of_nat 0))%N then None
                 else Some (parse_exponent (String c r0))) = Some r).
    { destruct c as [[] [] [] [] [] [] [] []];
        first [ exact H | exfalso; apply Hne; reflexivity ]. }
    repeat match type of D with
           | context [if ?b then _ else _] => destruct b
           end; try discriminate D.
    injection D as <-. now apply parse_exponent_chars.
Qed.

Lemma strtod_chars (s r : string) :
  strtod s = Some r -> all_chars float_char r -> all_chars float_char s.
Proof.
  unfold strtod. destruct (parse_inf_or_nan s) as [r1|] eqn:E.
  - intros [= <-]. now apply parse_inf_or_nan_chars.
  - apply parse_decimal_chars.
Qed.

Lemma strip_underscores_chars (s : string) :
  forall prev d, strip_underscores prev s = Some d ->
                 all_chars float_char d -> all_chars float_char s.
Proof.
  induction s as [|c s IH]; intros prev d; simpl.
  - destruct (Ascii.eqb prev "_"); [discriminate | now intros [= <-]].
  - destruct (Ascii.eqb c "_") eqn:E.
    + destruct (is_digit prev); [|discriminate]. intros H Hd.
      apply all_chars_cons. split; [now apply (float_char_is c "_")|].
      now apply (IH c d).
    + destruct (Ascii.eqb prev "_" && negb (is_digit c)); [discriminate|].
      destruct (strip_underscores c s) as [t|] eqn:Et; [|discriminate].
      simpl. intros [= <-] Hd. apply all_chars_cons in Hd as [Hc Ht].
      apply all_chars_cons. split; [exact Hc | now apply (IH c t)].
Qed.

Lemma no_underscores_chars (s d : string) :
  no_underscores s = Some d ->
  all_chars float_char d -> all_chars float_char s.
Proof.
  unfold no_underscores. destruct (has_underscore s).
  - apply strip_underscores_chars.
  - now intros [= <-].
Qed.

Lemma c_lstrip_chars (s : string) :
  all_chars float_char (c_lstrip s) -> all_chars float_char s.
Proof.
  induction s as [|c s IH]; simpl; [easy|].
  destruct (c_isspace c) eqn:E; [|easy].
  intros H. apply all_chars_cons. split; [|now apply IH].
  now apply float_char_space, c_isspace_isspace.
Qed.

Lemma c_rstrip_chars (s : string) :
  all_chars float_char (c_rstrip s) -> all_chars float_char s.
Proof.
  induction s as [|c s IH]; simpl; [easy|].
  destruct (c_rstrip s) as [|d t] eqn:E.
  - destruct (c_isspace c) eqn:Ec.
    + intros _. apply all_chars_cons.
      split; [now apply float_char_space, c_isspace_isspace|].
      now apply IH.
    + intros H. apply all_chars_cons in H as [Hc _].
      apply all_chars_cons. split; [exact Hc | now apply IH].
  - intros H. apply all_chars_cons in H as [Hc Ht].
    apply all_chars_cons. split; [exact Hc | now apply IH].
Qed.

Lemma transform_chars (s : string) :
  all_chars float_char (transform s) -> all_chars float_char s.
Proof.
  induction s as [|c s IH]; simpl; [easy|].
  destruct (code c <? 127)%N.
  - intros H. apply all_chars_cons in H as [Hc Ht].
    apply all_chars_cons. split; [exact Hc | now apply IH].
  - destruct (isspace c) eqn:E.
    + intros H. apply all_chars_cons in H as [_ Ht].
      apply all_chars_cons. split; [now apply float_char_space | now apply IH].
    + intros H. apply all_chars_cons in H as [Hq _]. discriminate Hq.
Qed.

Lemma to_ascii_chars (s : string) :
  all_chars float_char (to_ascii s) -> all_chars float_char s.
Proof.
  unfold to_ascii. destruct (is_ascii s); [easy | apply transform_chars].
Qed.

(** Only characters of the float notation occur in a text that
    [float] accepts. *)
Lemma float_ok_chars (val : string) :
  float_ok val = true -> all_chars float_char val.
Proof.
  unfold float_ok. intros H.
  apply to_ascii_chars, c_lstrip_chars, c_rstrip_chars.
  destruct (no_underscores (c_rstrip (c_lstrip (to_ascii val))))
    as [d|] eqn:E; [|discriminate].
  apply (no_underscores_chars _ d E).
  destruct (strtod d) as [[|c r]|] eqn:Es; try discriminate.
  apply (strtod_chars d "" Es). apply all_chars_empty.
Qed.

Lemma build_where_numeric_float (col op val : string) :
  In op comparison_ops ->
  build_where [(col, op, val)] = numeric_comparison col op val ->
  float_ok val = true.
Proof.
  intros Hop H. destruct (skipped val) eqn:Hs.
  - rewrite (build_where_of_skipped col op val Hs) in H. discriminate H.
  - rewrite (build_where_comparison col op val Hop Hs) in H.
    unfold compare_fragment in H.
    destruct (float_ok val); [reflexivity|].
    symmetry in H. now apply numeric_not_text in H.
Qed.

(** X4. When a comparison is compiled numerically, the value, which is
    written into the query without quotes, consists of characters of the
    float notation only (digits, sign, point, underscore, the letters of
    an exponent, of inf, infinity and nan, whitespace): it holds no
    quote, semicolon, parenthesis, comparison or arithmetic sign other
    than + and -. *)
Theorem numeric_value_alphabet (col op val : string) :
  In op comparison_ops ->
  build_where [(col, op, val)] = numeric_comparison col op val ->
  all_chars float_char val
  /\ forall c, In c (list_ascii_of_string val) ->
               ~ In c ["'"; "034"; ";"; "("; ")"; "="; "<"; ">"; "!"; "%";
                       "*"; "/"; ","; "\"]%char.
Proof.
  intros Hop H. apply build_where_numeric_float in H; [|exact Hop].
  apply float_ok_chars in H. split; [exact H|].
  intros c Hc Hbad. unfold all_chars in H.
  rewrite forallb_forall in H. specialize (H c Hc).
  simpl in Hbad.
  repeat (destruct Hbad as [<- | Hbad]; [discriminate H|]).
  exact Hbad.
Qed.

Lemma numeric_value_alphabet_witness :
  In "<=" comparison_ops
  /\ build_where [("Delivered", "<=", " -1.5e3")]
     = numeric_comparison "Delivered" "<=" " -1.5e3"
  /\ all_chars float_char " -1.5e3".
Proof.
  assert (Hop : In "<=" comparison_ops) by (simpl; tauto).
  assert (H : build_where [("Delivered", "<=", " -1.5e3")]
              = numeric_comparison "Delivered" "<=" " -1.5e3")
    by reflexivity.
  split; [exact Hop|]. split; [exact H|].
  exact (proj1 (numeric_value_alphabet "Delivered" "<=" " -1.5e3" Hop H)).
Defined.

(** ** Values written in decimal digits *)

Lemma digit_facts (c : ascii) :
  is_digit c = true ->
  c_isspace c = false /\ (code c <? 128)%N = true
  /\ Ascii.eqb c "_" = false /\ Ascii.eqb c "." = false
  /\ forall r, drop_sign (String c r) = String c r
               /\ parse_inf_or_nan (String c r) = None.
Proof.
  destruct c as [[] [] [] [] [] [] [] []]; intros H;
    solve [discriminate H | repeat split; reflexivity].
Qed.

Lemma digits_ascii (s : string) : all_chars is_digit s -> is_ascii s = true.
Proof.
  unfold all_chars, is_ascii. induction s as [|c s IH]; simpl; [easy|].
  intros H. apply andb_true_iff in H as [Hc Hs].
  destruct (digit_facts c Hc) as (_ & -> & _). now apply IH.
Qed.

Lemma digits_c_lstrip (s : string) : all_chars is_digit s -> c_lstrip s = s.
Proof.
  destruct s as [|c s]; [easy|]. intros H.
  apply all_chars_cons in H as [Hc _]. simpl.
  now destruct (digit_facts c Hc) as (-> & _).
Qed.

Lemma digits_c_rstrip (s : string) : all_chars is_digit s -> c_rstrip s = s.
Proof.
  induction s as [|c s IH]; [easy|]. intros H.
  apply all_chars_cons in H as [Hc Hs]. simpl. rewrite (IH Hs).
  destruct s; [|reflexivity].
  now destruct (digit_facts c Hc) as (-> & _).
Qed.

Lemma digits_no_underscore (s : string) :
  all_chars is_digit s -> no_underscores s = Some s.
Proof.
  intros H. unfold no_underscores.
  replace (has_underscore s) with false; [reflexivity|].
  symmetry. unfold has_underscore, all_chars in *.
  induction s as [|c s IH]; simpl; [reflexivity|].
  simpl in H. apply andb_true_iff in H as [Hc Hs].
  destruct (digit_facts c Hc) as (_ & _ & -> & _). now apply IH.
Qed.

Lemma span_length (p : ascii -> bool) (s : string) :
  forall n t, span p s = (n, t) -> String.length s = n + String.length t.
Proof.
  induction s as [|c s IH]; intros n t; simpl.
  - now intros [= <- <-].
  - destruct (p c).
    + destruct (span p s) as [m u]. intros [= <- <-].
      simpl. f_equal. now apply IH.
    + now intros [= <- <-].
Qed.

Lemma span_rest_chars (p q : ascii -> bool) (s : string) :
  forall n t, span p s = (n, t) -> all_chars q s -> all_chars q t.
Proof.
  induction s as [|c s IH]; intros n t; simpl.
  - now intros [= <- <-].
  - destruct (p c).
    + destruct (span p s) as [m u]. intros [= <- <-] H.
      apply all_chars_cons in H as [_ H]. now apply (IH m u).
    + now intros [= <- <-].
Qed.

Lemma span_all (p : ascii -> bool) (s : string) :
  all_chars p s -> span p s = (String.length s, "").
Proof.
  induction s as [|c s IH]; [easy|]. intros H.
  apply all_chars_cons in H as [Hc Hs]. simpl.
  now rewrite Hc, (IH Hs).
Qed.

Lemma digits_parse_decimal (s : string) :
  s <> "" -> all_chars is_digit s ->
  (N.of_nat (String.length s) <= MAX_DIGITS)%N ->
  parse_decimal s = Some "".
Proof.
  intros Hne Hd Hlen. unfold parse_decimal.
  assert (Es : drop_sign s = s).
  { destruct s as [|c r]; [easy|]. apply all_chars_cons in Hd as [Hc _].
    destruct (digit_facts c Hc) as (_ & _ & _ & _ & F). apply F. }
  rewrite Es.
  destruct (span is_zero s) as [lz s1] eqn:E1.
  pose proof (span_length _ _ _ _ E1) as L.
  pose proof (span_rest_chars is_zero is_digit _ _ _ E1 Hd) as D1.
  rewrite (span_all is_digit s1 D1).
  assert (Pos : 0 < String.length s) by (destruct s; [easy | simpl; lia]).
  replace ((String.length s1 =? 0)%nat && negb (0 <? lz)%nat) with false.
  - replace ((MAX_DIGITS <? N.of_nat (String.length s1))
             || (MAX_DIGITS <? N.of_nat 0))%N with false; [reflexivity|].
    symmetry. apply orb_false_iff. split; apply N.ltb_ge; [lia|].
    unfold MAX_DIGITS. lia.
  - symmetry. apply andb_false_iff.
    destruct (String.length s1) eqn:E0.
    + right. apply negb_false_iff, Nat.ltb_lt. lia.
    + left. reflexivity.
Qed.

(** A text of decimal digits converts. *)
Lemma digits_float_ok (s : string) :
  s <> "" -> all_chars is_digit s ->
  (N.of_nat (String.length s) <= MAX_DIGITS)%N ->
  float_ok s = true.
Proof.
  intros Hne Hd Hlen. unfold float_ok, to_ascii.
  rewrite (digits_ascii s Hd), (digits_c_lstrip s Hd),
    (digits_c_rstrip s Hd), (digits_no_underscore s Hd).
  unfold strtod.
  replace (parse_inf_or_nan s) with (@None string).
  - now rewrite (digits_parse_decimal s Hne Hd Hlen).
  - destruct s as [|c r]; [easy|]. apply all_chars_cons in Hd as [Hc _].
    destruct (digit_facts c Hc) as (_ & _ & _ & _ & F).
    symmetry. apply F.
Qed.

(** X5. A value written in decimal digits only (at least one, and no
    more than the 10^9 that [float] reads) is compared numerically by each
    of the six comparison operators: the column is cast to DOUBLE and the
    digits are written without quotes. *)
Theorem digits_compare_numerically (col op val : string) :
  In op comparison_ops ->
  val <> "" -> all_chars is_digit val ->
  (N.of_nat (String.length val) <= MAX_DIGITS)%N ->
  build_where [(col, op, val)] = numeric_comparison col op val.
Proof.
  intros Hop Hne Hd Hlen.
  pose proof (digits_float_ok val Hne Hd Hlen) as F.
  rewrite (build_where_comparison col op val Hop (float_ok_not_skipped val F)).
  unfold compare_fragment. now rewrite F.
Qed.

Lemma digits_compare_numerically_witness :
  In ">=" comparison_ops /\ "0550" <> "" /\ all_chars is_digit "0550"
  /\ (N.of_nat (String.length "0550") <= MAX_DIGITS)%N
  /\ build_where [("SMTP Code", ">=", "0550")]
     = numeric_comparison "SMTP Code" ">=" "0550".
Proof.
  assert (Hop : In ">=" comparison_ops) by (simpl; tauto).
  assert (Hne : "0550" <> "") by discriminate.
  assert (Hd : all_chars is_digit "0550") by reflexivity.
  assert (Hlen : (N.of_nat (String.length "0550") <= MAX_DIGITS)%N)
    by (vm_compute; discriminate).
  repeat (split; [assumption|]).
  exact (digits_compare_numerically "SMTP Code" ">=" "0550" Hop Hne Hd Hlen).
Defined.

(** ** The pattern operators *)

Lemma blank_append (a b : string) : blank (a ++ b) -> blank b.
Proof.
  unfold blank. induction a as [|c a IH]; simpl; [easy|].
  intros H. apply andb_true_iff in H as [_ H]. now apply IH.
Qed.

Lemma not_skipped_percent_head (v : string) : skipped ("%" ++ v) = false.
Proof.
  destruct (skipped ("%" ++ v)) eqn:E; [|reflexivity].
  apply skipped_iff in E. discriminate E.
Qed.

Lemma not_skipped_percent_tail (v : string) : skipped (v ++ "%") = false.
Proof.
  destruct (skipped (v ++ "%")) eqn:E; [|reflexivity].
  apply skipped_iff, blank_append in E. discriminate E.
Qed.

Section Patterns.

Variables col val : string.
Hypothesis compiled : skipped val = false.

Lemma contains_fragment :
  build_where [(col, "contains", val)]
  = "CAST(" ++ (dq ++ col ++ dq) ++ " AS VARCHAR) ILIKE '%" ++ val ++ "%'".
Proof. single_triple. rewrite compiled. reflexivity. Qed.

Lemma starts_with_fragment :
  build_where [(col, "starts_with", val)]
  = "CAST(" ++ (dq ++ col ++ dq) ++ " AS VARCHAR) ILIKE '" ++ val ++ "%'".
Proof. single_triple. rewrite compiled. reflexivity. Qed.

Lemma ends_with_fragment :
  build_where [(col, "ends_with", val)]
  = "CAST(" ++ (dq ++ col ++ dq) ++ " AS VARCHAR) ILIKE '%" ++ val ++ "'".
Proof. single_triple. rewrite compiled. reflexivity. Qed.

End Patterns.

(** X6. The three pattern operators compile a value that is not skipped
    to a case-insensitive match of the VARCHAR-cast column, whether or not
    the value is a number, and write the value into the pattern as it is:
    a percent sign typed by the user acts as the wildcard the operators
    add, so "contains v", "starts_with %v" and "ends_with v%" compile to
    the same fragment. *)
Theorem pattern_operators_share_wildcard (col val : string) :
  skipped val = false ->
  build_where [(col, "contains", val)]
  = "CAST(" ++ (dq ++ col ++ dq) ++ " AS VARCHAR) ILIKE '%" ++ val ++ "%'"
  /\ build_where [(col, "starts_with", "%" ++ val)]
     = build_where [(col, "contains", val)]
  /\ build_where [(col, "ends_with", val ++ "%")]
     = build_where [(col, "contains", val)].
Proof.
  intros Hs. rewrite (contains_fragment col val Hs).
  split; [reflexivity|]. split.
  - now rewrite (starts_with_fragment col _ (not_skipped_percent_head val)).
  - rewrite (ends_with_fragment col _ (not_skipped_percent_tail val)).
    do 2 f_equal. now rewrite !append_assoc.
Qed.

Lemma pattern_operators_share_wildcard_witness :
  skipped "50" = false
  /\ build_where [("Details", "starts_with", "%50")]
     = build_where [("Details", "contains", "50")].
Proof.
  assert (Hs : skipped "50" = false) by reflexivity.
  split; [exact Hs|].
  exact (proj1 (proj2 (pattern_operators_share_wildcard "Details" "50" Hs))).
Defined.

(** ** [pick_col] *)

Lemma list_index_nth (x : string) (l : list string) :
  forall i, list_index x l = Ok i -> nth_error l i = Some x.
Proof.
  induction l as [|y l IH]; intros i; simpl; [discriminate|].
  destruct (String.eqb_spec y x) as [-> | Hne].
  - now intros [= <-].
  - destruct (list_index x l) as [j|e]; simpl; [|discriminate].
    intros [= <-]. now apply IH.
Qed.

Lemma dict_get_unknown (d : list (string * string)) (key : string) :
  ~ In key (map fst d) -> dict_get d key = Raise KeyError.
Proof.
  induction d as [|[k v] d IH]; simpl; [reflexivity|].
  intros H. destruct (String.eqb_spec k key) as [-> | Hne].
  - exfalso. apply H. now left.
  - apply IH. intros Hin. apply H. now right.
Qed.

Lemma dict_get_known (d : list (string * string)) (key : string) :
  In key (map fst d) -> exists v, dict_get d key = Ok v.
Proof.
  induction d as [|[k v] d IH]; simpl; [intros []|].
  intros H. destruct (String.eqb_spec k key) as [-> | Hne].
  - now exists v.
  - destruct H as [H | H]; [contradiction | now apply IH].
Qed.

(** With a role of [default_map], [pick_col] returns. *)
Lemma pick_col_returns (cols : list string) (key preferred : string)
    (choice : option nat) :
  dict_get default_map key = Ok preferred ->
  exists r, pick_col cols key choice = Ok r.
Proof.
  intros Hkey. unfold pick_col. rewrite Hkey. cbn [bind].
  destruct cols as [|c0 cols'] eqn:Ecols.
  - exists None. unfold mem. cbn [existsb bind]. apply selectbox_empty.
  - rewrite <- Ecols.
    assert (Hne : cols <> []) by (rewrite Ecols; discriminate).
    destruct (pick_col_index cols Hne preferred) as (idx & -> & Hidx).
    cbn [bind].
    destruct (selectbox_member cols idx choice Hne Hidx) as (c & -> & _).
    now exists (Some c).
Qed.

(** X7. For a role of [default_map] whose preferred column name is in the
    table, the column [pick_col] selects before the user touches the box
    is that preferred column, wherever it stands in the table; and a
    column the user picks in the box is the one returned. *)
Theorem pick_col_prefers_default
    (cols : list string) (key preferred : string) :
  dict_get default_map key = Ok preferred ->
  (In preferred cols -> pick_col cols key None = Ok (Some preferred))
  /\ (forall j c, nth_error cols j = Some c ->
                  pick_col cols key (Some j) = Ok (Some c)).
Proof.
  intros Hkey. split.
  - intros Hin. unfold pick_col. rewrite Hkey. cbn [bind].
    apply mem_In in Hin as Hm. rewrite Hm.
    destruct (list_index_member preferred cols Hin) as (i & Ei & Hi).
    rewrite Ei. cbn [bind]. unfold selectbox.
    apply Nat.ltb_lt in Hi as Hb. rewrite Hb, andb_false_r.
    now rewrite (list_index_nth preferred cols i Ei).
  - intros j c Hj.
    assert (Hlt : j < length cols)
      by (apply nth_error_Some; congruence).
    assert (Hne : cols <> []) by (destruct cols; [simpl in Hlt; lia | easy]).
    unfold pick_col. rewrite Hkey. cbn [bind].
    destruct (pick_col_index cols Hne preferred) as (idx & -> & Hidx).
    cbn [bind]. unfold selectbox.
    apply Nat.ltb_lt in Hidx as Hb. rewrite Hb, andb_false_r.
    apply Nat.ltb_lt in Hlt as Hb'. now rewrite Hb', Hj.
Qed.

Lemma pick_col_prefers_default_witness :
  dict_get default_map "reason" = Ok "Detail Category"
  /\ In "Detail Category" ["User"; "Detail Category"; "Server"]
  /\ pick_col ["User"; "Detail Category"; "Server"] "reason" None
     = Ok (Some "Detail Category")
  /\ pick_col ["User"; "Detail Category"; "Server"] "reason" (Some 2)
     = Ok (Some "Server").
Proof.
  assert (K : dict_get default_map "reason" = Ok "Detail Category")
    by reflexivity.
  assert (I : In "Detail Category" ["User"; "Detail Category"; "Server"])
    by (simpl; tauto).
  destruct (pick_col_prefers_default
              ["User"; "Detail Category"; "Server"] "reason"
              "Detail Category" K) as [D U].
  split; [exact K|]. split; [exact I|]. split; [exact (D I)|].
  apply U. reflexivity.
Defined.

(** X8. [pick_col] raises exactly when its key is none of the seven keys
    of [default_map], and what it raises then is [KeyError], whatever the
    table and whatever the user does. *)
Theorem pick_col_raises_iff_unknown_role
    (cols : list string) (key : string) (choice : option nat) :
  (In key (map fst default_map) ->
   exists r, pick_col cols key choice = Ok r)
  /\ (~ In key (map fst default_map) ->
      pick_col cols key choice = Raise KeyError).
Proof.
  split.
  - intros H. destruct (dict_get_known default_map key H) as [v Hv].
    now apply (pick_col_returns cols key v).
  - intros H. unfold pick_col.
    now rewrite (dict_get_unknown default_map key H).
Qed.

Lemma pick_col_raises_iff_unknown_role_witness :
  In "smtp" (map fst default_map)
  /\ ~ In "subject" (map fst default_map)
  /\ (exists r, pick_col ["SMTP Code"] "smtp" None = Ok r)
  /\ pick_col ["SMTP Code"] "subject" None = Raise KeyError.
Proof.
  assert (K : In "smtp" (map fst default_map)) by (simpl; tauto).
  assert (U : ~ In "subject" (map fst default_map)).
  { simpl. intros H. repeat (destruct H as [H | H]; [discriminate H|]).
    exact H. }
  split; [exact K|]. split; [exact U|]. split.
  - exact (proj1 (pick_col_raises_iff_unknown_role ["SMTP Code"] "smtp" None)
             K).
  - exact (proj2 (pick_col_raises_iff_unknown_role ["SMTP Code"] "subject"
                    None) U).
Defined.

(** ** The rows of filter widgets *)

(** X9. For a table with at least one column, filling [filters] from the
    rows of widgets raises nothing; it yields one triple per row, in the
    order of the rows, with the text typed as value unchanged, a column
    of the table and one of the ten operators; and when every value typed
    is empty or whitespace-only, as before the user types anything, the
    query has no WHERE clause. *)
Theorem collect_filters_shape (cols : list string) (rows : list filter_row) :
  cols <> [] ->
  exists filters,
    collect_filters cols rows = Ok filters
    /\ map snd filters = map val_text rows
    /\ Forall (fun f : filter_triple =>
                 In (fst (fst f)) cols /\ In (snd (fst f)) operators)
         filters
    /\ (Forall (fun r => blank (val_text r)) rows -> where_sql filters = "").
Proof.
  intros Hne.
  induction rows as [|r rows (filters & E & V & O & W)].
  - exists []. repeat split; constructor.
  - destruct (selectbox_member cols 0 (col_choice r) Hne (length_pos _ Hne))
      as (c & Ec & Hc).
    destruct (selectbox_member operators 0 (op_choice r))
      as (o & Eo & Ho); [discriminate | simpl; lia |].
    exists ((c, o, val_text r) :: filters).
    split; [|split; [|split]].
    + cbn [collect_filters]. rewrite Ec. cbn [bind]. rewrite Eo.
      cbn [bind]. now rewrite E.
    + cbn [map snd]. now rewrite V.
    + constructor; [now split | exact O].
    + intros H. inversion H as [|r' rows' Hb Hrest]; subst.
      unfold where_sql, truthy, build_where. cbn [fold_left].
      rewrite (where_step_skipped _ _ _ _ (proj2 (skipped_iff _) Hb)).
      specialize (W Hrest). unfold where_sql, truthy, build_where in W.
      exact W.
Qed.

(** The two empty filter rows the page starts with. *)
Lemma collect_filters_shape_witness :
  ["Status"; "Name"] <> []
  /\ exists filters,
       collect_filters ["Status"; "Name"]
         [ {| col_choice := None; op_choice := None; val_text := "" |};
           {| col_choice := Some 1; op_choice := Some 6; val_text := " " |} ]
       = Ok filters
       /\ map snd filters = [""; " "]
       /\ where_sql filters = "".
Proof.
  assert (H : ["Status"; "Name"] <> []) by discriminate.
  destruct (collect_filters_shape ["Status"; "Name"]
              [ {| col_choice := None; op_choice := None; val_text := "" |};
                {| col_choice := Some 1; op_choice := Some 6;
                   val_text := " " |} ] H)
    as (filters & E & V & _ & W).
  split; [exact H|]. exists filters. split; [exact E|]. split; [exact V|].
  apply W. repeat constructor.
Defined.

(** ** The items of the membership operator, continued *)

Lemma rstrip_idem (s : string) : rstrip (rstrip s) = rstrip s.
Proof.
  induction s as [|c s IH]; [reflexivity|]. simpl.
  destruct (rstrip s) as [|d t] eqn:E.
  - destruct (isspace c) eqn:Ec; [reflexivity|]. simpl. now rewrite Ec.
  - change (rstrip (String c (String d t)))
      with (match rstrip (String d t) with
            | EmptyString => if isspace c then EmptyString
                             else String c EmptyString
            | r => String c r
            end).
    now rewrite IH.
Qed.

Lemma rstrip_head (c : ascii) (r : string) :
  isspace c = false -> exists r', rstrip (String c r) = String c r'.
Proof.
  intros H. simpl. destruct (rstrip r); [rewrite H|]; now eexists.
Qed.

Lemma strip_idem (s : string) : strip (strip s) = strip s.
Proof.
  unfold strip.
  destruct (lstrip_head s) as [-> | (c & r & -> & Hc)]; [reflexivity|].
  destruct (rstrip_head c r Hc) as [r' E]. rewrite E.
  cbn [lstrip]. rewrite Hc, <- E. apply rstrip_idem.
Qed.

(** A trimmed text that is not empty starts with a character that is
    not white. *)
Lemma trimmed_head (x : string) :
  strip x = x -> x <> "" -> exists c r, x = String c r /\ isspace c = false.
Proof.
  unfold strip. intros E Hne.
  destruct (lstrip_head x) as [L | (c & r & L & Hc)].
  - rewrite L in E. simpl in E. congruence.
  - rewrite L in E. destruct (rstrip_head c r Hc) as [r' R].
    rewrite R in E. now exists c, r'.
Qed.

Lemma lstrip_chars (s : string) (c : ascii) :
  In c (list_ascii_of_string (lstrip s)) -> In c (list_ascii_of_string s).
Proof.
  induction s as [|d s IH]; simpl; [easy|].
  destruct (isspace d); [|easy]. intros H. right. now apply IH.
Qed.

Lemma rstrip_chars (s : string) (c : ascii) :
  In c (list_ascii_of_string (rstrip s)) -> In c (list_ascii_of_string s).
Proof.
  induction s as [|d s IH]; simpl; [easy|].
  destruct (rstrip s) as [|e t].
  - destruct (isspace d); simpl; [easy | tauto].
  - simpl in *. tauto.
Qed.

Lemma split_pieces_no_sep (sep : ascii) (s : string) :
  forall x, In x (split sep s) -> ~ In sep (list_ascii_of_string x).
Proof.
  induction s as [|c s IH]; simpl.
  - intros x [<- | []]. easy.
  - destruct (Ascii.eqb_spec c sep) as [-> | Hne].
    + intros x [<- | H]; [easy | now apply IH].
    + destruct (split sep s) as [|y l]; simpl.
      * intros x [<- | []]. simpl. intros [E | []]. congruence.
      * intros x [<- | H].
        -- simpl. intros [E | E]; [congruence|].
           apply (IH y); [now left | exact E].
        -- apply IH. now right.
Qed.

(** X10. Every item of the literal list of the membership operator is
    non-empty, has no whitespace at either end, and holds no comma. *)
Theorem in_items_trimmed (val x : string) :
  In x (in_items val) ->
  x <> "" /\ strip x = x /\ ~ In ","%char (list_ascii_of_string x).
Proof.
  unfold in_items. intros H.
  apply in_map_iff in H as (raw & <- & Hraw).
  apply filter_In in Hraw as [Hin Ht]. split; [|split].
  - unfold truthy in Ht. now apply negb_true_iff, String.eqb_neq in Ht.
  - apply strip_idem.
  - intros Hc. apply (split_pieces_no_sep "," val raw Hin).
    unfold strip in Hc. now apply lstrip_chars, rstrip_chars.
Qed.

Lemma in_items_trimmed_witness :
  In "b c" (in_items " a ,, b c ,")
  /\ "b c" <> "" /\ strip "b c" = "b c"
  /\ ~ In ","%char (list_ascii_of_string "b c").
Proof.
  assert (H : In "b c" (in_items " a ,, b c ,")) by (simpl; tauto).
  split; [exact H|].
  exact (in_items_trimmed " a ,, b c ," "b c" H).
Defined.

(** ** Joining items and splitting them again *)

Lemma split_no_sep (sep : ascii) (x : string) :
  ~ In sep (list_ascii_of_string x) -> split sep x = [x].
Proof.
  induction x as [|c x IH]; simpl; [reflexivity|].
  intros H. destruct (Ascii.eqb_spec c sep) as [-> | Hne].
  - exfalso. apply H. now left.
  - rewrite IH; [reflexivity|]. intros Hin. apply H. now right.
Qed.

Lemma split_append_sep (sep : ascii) (x rest : string) :
  ~ In sep (list_ascii_of_string x) ->
  split sep (x ++ String sep rest) = x :: split sep rest.
Proof.
  induction x as [|c x IH]; simpl.
  - intros _. now rewrite Ascii.eqb_refl.
  - intros H. destruct (Ascii.eqb_spec c sep) as [-> | Hne].
    + exfalso. apply H. now left.
    + rewrite IH; [reflexivity|]. intros Hin. apply H. now right.
Qed.

Lemma split_join (items : list string) :
  items <> [] ->
  Forall (fun x => ~ In ","%char (list_ascii_of_string x)) items ->
  split "," (join "," items) = items.
Proof.
  unfold join. intros Hne H. induction H as [|x l Hx Hl IH]; [contradiction|].
  destruct l as [|y l].
  - simpl. now apply split_no_sep.
  - change (String.concat "," (x :: y :: l))
      with (x ++ String "," (String.concat "," (y :: l))).
    rewrite (split_append_sep "," x _ Hx). f_equal.
    apply IH. discriminate.
Qed.

(** An item as the membership operator keeps it. *)
Lemma kept_items (items : list string) :
  Forall (fun x => x <> "" /\ strip x = x) items ->
  map strip (filter (fun x => truthy (strip x)) items) = items.
Proof.
  induction 1 as [|x l [Hne Hs] _ IH]; [reflexivity|]. simpl.
  rewrite Hs. unfold truthy at 1.
  apply String.eqb_neq in Hne. rewrite Hne. simpl. now rewrite Hs, IH.
Qed.

Lemma join_not_skipped (x : string) (l : list string) :
  x <> "" -> strip x = x -> skipped (join "," (x :: l)) = false.
Proof.
  intros Hne Hs. destruct (trimmed_head x Hs Hne) as (c & r & -> & Hc).
  destruct (join_head "," (String c r) l) as [tail ->].
  destruct (skipped (String c r ++ tail)) eqn:E; [|reflexivity].
  apply skipped_iff in E. unfold blank in E. simpl in E.
  rewrite Hc in E. discriminate E.
Qed.

(** X11. Items that are non-empty, without whitespace at either end and
    without a comma, written one after the other with commas between
    them, are read back by the membership operator as they were, in the
    same order and with their repetitions; for at least one item the
    compiled fragment is the membership test against exactly them. *)
Theorem in_items_of_joined (col : string) (items : list string) :
  Forall (fun x => x <> "" /\ strip x = x
                   /\ ~ In ","%char (list_ascii_of_string x)) items ->
  in_items (join "," items) = items
  /\ (items <> [] ->
      build_where [(col, "in (comma separated)", join "," items)]
      = membership_test col items).
Proof.
  intros H.
  assert (Hc : Forall (fun x => ~ In ","%char (list_ascii_of_string x)) items)
    by (eapply Forall_impl; [|exact H]; cbv beta; tauto).
  assert (Hk : Forall (fun x => x <> "" /\ strip x = x) items)
    by (eapply Forall_impl; [|exact H]; cbv beta; tauto).
  assert (I : in_items (join "," items) = items).
  { destruct items as [|x l]; [reflexivity|].
    unfold in_items. rewrite split_join by (discriminate || exact Hc).
    now apply kept_items. }
  split; [exact I|].
  intros Hne. destruct items as [|x l]; [contradiction|].
  inversion Hk as [|x' l' [Hx Hs] _]; subst.
  rewrite (build_where_in col _ (join_not_skipped x l Hx Hs)).
  now rewrite I.
Qed.

Lemma in_items_of_joined_witness :
  Forall (fun x => x <> "" /\ strip x = x
                   /\ ~ In ","%char (list_ascii_of_string x))
    ["gmail.com"; "a b"; "gmail.com"]
  /\ in_items (join "," ["gmail.com"; "a b"; "gmail.com"])
     = ["gmail.com"; "a b"; "gmail.com"].
Proof.
  assert (H : Forall (fun x => x <> "" /\ strip x = x
                               /\ ~ In ","%char (list_ascii_of_string x))
                ["gmail.com"; "a b"; "gmail.com"]).
  { repeat constructor; try discriminate;
      simpl; intros F; repeat (destruct F as [F | F]; [discriminate F|]);
      exact F. }
  split; [exact H|].
  exact (proj1 (in_items_of_joined "To Domain" _ H)).
Defined.

(** ** The presets of a sheet *)

(** X12. Only the sheets "Failure Details" and "Domains w Lower
    Deliverability" have presets; the text of the two presets of the
    latter does not depend on any column choice: they name the columns
    Domain, Recipients, Delivered and Success Rate % whatever the table
    holds, while each preset of "Failure Details" changes with the
    column chosen for its role. *)
Theorem presets_by_sheet (sheet : string) :
  (presets_of_sheet sheet = []
   <-> sheet <> "Failure Details"
       /\ sheet <> "Domains w Lower Deliverability")
  /\ (forall p, In p (presets_of_sheet "Domains w Lower Deliverability") ->
                forall m m', preset_sql p m = preset_sql p m')
  /\ (forall p, In p (presets_of_sheet "Failure Details") ->
                exists m m', preset_sql p m <> preset_sql p m').
Proof.
  split; [|split].
  - unfold presets_of_sheet.
    destruct (String.eqb_spec sheet "Failure Details") as [-> | N1].
    + split; [discriminate | intros [N _]; now contradiction N].
    + destruct (String.eqb_spec sheet "Domains w Lower Deliverability")
        as [-> | N2].
      * split; [discriminate | intros [_ N]; now contradiction N].
      * now split.
  - intros p Hp m m'. simpl in Hp.
    destruct Hp as [<- | [<- | []]]; reflexivity.
  - intros p Hp.
    exists (Build_role_cols (Some "a") (Some "a") (Some "a") (Some "a")
              (Some "a") (Some "a")),
           (Build_role_cols (Some "b") (Some "b") (Some "b") (Some "b")
              (Some "b") (Some "b")).
    simpl in Hp.
    repeat (destruct Hp as [<- | Hp]; [discriminate|]). destruct Hp.
Qed.
